(** * NFS client provisioner: volume lifecycle

    A shallow embedding of the two provisioner programs of the repository,

    - [nfs-client/cmd/nfs-client-provisioner/provisioner.go]
      (module [NfsClient]: directories named tenant-stack-service-name,
      one mount point per (server, path)), and
    - [unnamed/part_000]
      (module [Part000]: directories named namespace-name, one mount
      point per server),

    together with the Go library functions they call ([fmt.Sprintf] with
    [%s] verbs, [url.QueryEscape], [path.Clean], [path.Dir],
    [filepath.Join]) and a model of the host they run on (the mount
    table, the directory tree, [os.MkdirAll], [os.Rename] and the
    [mount] command). *)

From Stdlib Require Import String Ascii List Bool NArith DecimalString Lia.
From stdpp Require Import gmap strings.
Import ListNotations.

Local Open Scope string_scope.
Local Open Scope list_scope.

(** ** Go strings

    A Go string is a sequence of bytes: [string], whose characters are
    the 256 values of [ascii]. *)

Module GoString.

(** [strings.Split(s, "/")] for a one-byte separator: the pieces of
    [s] between occurrences of [sep]; never the empty list. *)
Fixpoint Split (sep : ascii) (s : string) : list string :=
  match s with
  | EmptyString => [EmptyString]
  | String c s' =>
      if Ascii.eqb c sep then EmptyString :: Split sep s'
      else match Split sep s' with
           | [] => [String c EmptyString]
           | w :: ws => String c w :: ws
           end
  end.

(** [strings.Join(elems, sep)]. *)
Definition Join (elems : list string) (sep : string) : string :=
  String.concat sep elems.

(** [strings.ContainsRune(s, c)] for a one-byte rune. *)
Fixpoint Contains (c : ascii) (s : string) : bool :=
  match s with
  | EmptyString => false
  | String d s' => Ascii.eqb d c || Contains c s'
  end.

(** [strings.HasPrefix(s, pre)] followed by [s[len(pre):]]: what is
    left of [s] after [pre], when [s] starts with it. *)
Fixpoint TrimPrefix (pre s : string) : option string :=
  match pre, s with
  | EmptyString, _ => Some s
  | String a pre', String b s' =>
      if Ascii.eqb a b then TrimPrefix pre' s' else None
  | String _ _, EmptyString => None
  end.

End GoString.

(** ** [path] and [path/filepath] on a Unix host *)

Module GoPath.
Import GoString.

Definition slash : ascii := "/"%char.

Definition rooted (p : string) : bool :=
  match p with
  | String c _ => Ascii.eqb c slash
  | EmptyString => false
  end.

(** One path element read by [Clean]; [out] holds the elements
    written so far, the last one first.
    - an empty element and [.] are dropped;
    - [..] removes the last element written, unless there is none or
      it is itself a leading [..]: then it is dropped in a rooted
      path and kept in a relative one;
    - any other element is written. *)
Definition cleanStep (isRooted : bool) (out : list string) (e : string)
  : list string :=
  if String.eqb e "" then out
  else if String.eqb e "." then out
  else if String.eqb e ".." then
    match out with
    | [] => if isRooted then [] else [".."]
    | t :: out' => if String.eqb t ".." then ".." :: out else out'
    end
  else e :: out.

Definition cleanElems (isRooted : bool) (elems : list string) : list string :=
  rev (fold_left (cleanStep isRooted) elems []).

Definition render (isRooted : bool) (elems : list string) : string :=
  (if isRooted then "/" else "") +:+ Join elems "/".

(** [path.Clean] (and [filepath.Clean], the same function where the
    separator is [/]): the shortest path equivalent to [p] by lexical
    processing; the empty result is written [.]. *)
Definition Clean (p : string) : string :=
  let r := rooted p in
  let out := render r (cleanElems r (Split slash p)) in
  if String.eqb out "" then "." else out.

(** [filepath.Join]: leading empty elements are skipped, the rest are
    joined with [/] and the result is cleaned; all empty gives [""]. *)
Fixpoint Join (elem : list string) : string :=
  match elem with
  | [] => ""
  | e :: rest =>
      if String.eqb e "" then Join rest
      else Clean (GoString.Join elem "/")
  end.

(** [path.Split]'s first component: [p] up to and including its last
    slash. *)
Definition splitDir (p : string) : string :=
  String.concat "" (map (fun e => e +:+ "/") (removelast (Split slash p))).

(** [path.Dir]: all but the last element of [p], cleaned. *)
Definition Dir (p : string) : string := Clean (splitDir p).

(** A proper path element: no slash in it, and not one of the
    elements [Clean] treats specially. *)
Definition plain (e : string) : bool :=
  negb (Contains slash e) && negb (String.eqb e "")
  && negb (String.eqb e ".") && negb (String.eqb e "..").


(** The elements written so far (last first): proper elements on top
    of leading [..]s, and no [..] at all in a rooted path. *)
Definition normal (r : bool) (out : list string) : Prop :=
  exists P k, out = P ++ repeat ".." k
              /\ Forall (fun e => plain e = true) P
              /\ (r = true -> k = 0).

End GoPath.

(** ** [net/url] *)

Module URL.

Definition between (lo hi c : ascii) : bool :=
  (N_of_ascii lo <=? N_of_ascii c)%N && (N_of_ascii c <=? N_of_ascii hi)%N.

(** [shouldEscape(c, encodeQueryComponent)]: letters, digits and the
    marks [-], [_], [.], [~] are kept; every other byte is escaped. *)
Definition shouldEscape (c : ascii) : bool :=
  if between "a" "z" c || between "A" "Z" c || between "0" "9" c then false
  else if Ascii.eqb c "-" || Ascii.eqb c "_" || Ascii.eqb c "."
          || Ascii.eqb c "~" then false
  else true.

Definition upperhex : string := "0123456789ABCDEF".

Definition hexDigit (n : N) : ascii :=
  match String.get (N.to_nat n) upperhex with
  | Some d => d
  | None => "0"%char
  end.

(** [url.QueryEscape]: a space becomes [+], an escaped byte [c]
    becomes [%] followed by [upperhex[c>>4]] and [upperhex[c&15]]. *)
Fixpoint QueryEscape (s : string) : string :=
  match s with
  | EmptyString => EmptyString
  | String c s' =>
      if Ascii.eqb c " " then String "+" (QueryEscape s')
      else if shouldEscape c then
        String "%" (String (hexDigit (N.shiftr (N_of_ascii c) 4))
                   (String (hexDigit (N.land (N_of_ascii c) 15))
                      (QueryEscape s')))
      else String c (QueryEscape s')
  end.

Definition unhex (c : ascii) : option N :=
  if between "0" "9" c then Some (N_of_ascii c - 48)%N
  else if between "A" "F" c then Some (N_of_ascii c - 55)%N
  else if between "a" "f" c then Some (N_of_ascii c - 87)%N
  else None.

(** [url.QueryUnescape]: the inverse reading, failing on a malformed
    escape. *)
Fixpoint QueryUnescape (s : string) : option string :=
  match s with
  | EmptyString => Some EmptyString
  | String c s' =>
      if Ascii.eqb c "%" then
        match s' with
        | String a (String b s'') =>
            match unhex a, unhex b with
            | Some x, Some y =>
                option_map (String (ascii_of_N (16 * x + y)))
                           (QueryUnescape s'')
            | _, _ => None
            end
        | _ => None
        end
      else if Ascii.eqb c "+" then option_map (String " ") (QueryUnescape s')
      else option_map (String c) (QueryUnescape s')
  end.

End URL.

(** ** Go errors *)

Inductive Errno :=
  ENOENT | EEXIST | EACCES | ENOTDIR | ENOTEMPTY | EINVAL | EROFS | EIO.

Definition errnoString (e : Errno) : string :=
  match e with
  | ENOENT => "no such file or directory"
  | EEXIST => "file exists"
  | EACCES => "permission denied"
  | ENOTDIR => "not a directory"
  | ENOTEMPTY => "directory not empty"
  | EINVAL => "invalid argument"
  | EROFS => "read-only file system"
  | EIO => "input/output error"
  end.

(** The values of Go's [error] interface that the programs meet. *)
Inductive error :=
  | errorString (s : string)                  (* errors.New, fmt.Errorf *)
  | PathError (op path : string) (e : Errno)  (* *os.PathError *)
  | LinkError (op old new : string) (e : Errno) (* *os.LinkError *)
  | ExitError (status : nat).                 (* *exec.ExitError *)

Definition itoa (n : nat) : string :=
  DecimalString.NilZero.string_of_uint (Nat.to_uint n).

(** The [Error() string] method. *)
Definition Error (e : error) : string :=
  match e with
  | errorString s => s
  | PathError op path e => op +:+ " " +:+ path +:+ ": " +:+ errnoString e
  | LinkError op old new e =>
      op +:+ " " +:+ old +:+ " " +:+ new +:+ ": " +:+ errnoString e
  | ExitError status => "exit status " +:+ itoa status
  end.

(** ** The host

    The programs reach the host through four calls: reading
    [/proc/mounts], [os.MkdirAll], running the [mount] command, and
    [os.Rename].  The host is the mount table, the set of directories
    that exist (paths are compared as written: the programs hand the
    host the paths built by [mountPoint] and [filepath.Join]), an
    oracle saying which calls the host refuses, and the log of the calls
    made so far.  The directory set is the tree as the process sees it;
    what a remote export holds while it is not mounted is not tracked. *)

Inductive Call :=
  | ReadMountsCall (file : string)
  | MkdirAllCall (path : string)
  | MkdirCall (path : string)
  | MountCall (device mountpoint : string)
  | RenameCall (oldpath newpath : string).

(** A row of the mount table, as [linuxproc.Mount]. *)
Record Mount := mkMount { Device : string; MountPoint : string }.

Record Host := mkHost {
  mounts : list Mount;
  dirs : list string;
  refuses : Call -> option Errno;
  trace : list Call
}.

Definition IO (A : Type) : Type := Host -> A * Host.

#[global] Instance IO_ret : MRet IO := fun A a h => (a, h).
#[global] Instance IO_bind : MBind IO :=
  fun A B f m h => let (a, h') := m h in f a h'.

(** A primitive host call, given by what it does to the host. *)
Definition io {A : Type} (f : Host -> A * Host) : IO A := f.

Module OS.

Definition log (c : Call) : IO unit :=
  fun h => (tt, mkHost (mounts h) (dirs h) (refuses h) (trace h ++ [c])).

(** The host once call [c] has been logged. *)
Definition logged (c : Call) (h : Host) : Host := snd (log c h).

Definition dirExists (h : Host) (p : string) : bool :=
  existsb (String.eqb p) (dirs h).

Definition isSlash (c : ascii) : bool := Ascii.eqb c "/".

Fixpoint dropWhile {A} (f : A -> bool) (l : list A) : list A :=
  match l with
  | [] => []
  | x :: l' => if f x then dropWhile f l' else l
  end.

(** The parent [os.MkdirAll] recurses on: [path] without its
    trailing separators, its last element and the separator before
    it. *)
Definition parentDir (path : string) : string :=
  let r := rev (list_ascii_of_string path) in
  let r := dropWhile isSlash r in
  let r := dropWhile (fun c => negb (isSlash c)) r in
  string_of_list_ascii (rev (tl r)).

(** [path], its parent, the parent of that, ... as long as there is
    one; [fuel] bounds the number of elements. *)
Fixpoint lineage (fuel : nat) (path : string) : list string :=
  match fuel with
  | O => []
  | S fuel' =>
      path :: (let parent := parentDir path in
               if String.eqb parent "" then [] else lineage fuel' parent)
  end.

(** [path] and the parents [os.MkdirAll] walks up through. *)
Definition ancestry (path : string) : list string :=
  lineage (S (String.length path)) path.

(** [syscall.Mkdir]. *)
Definition Mkdir (path : string) : IO (option error) :=
  io (fun h =>
    match refuses h (MkdirCall path) with
    | Some e => (Some (PathError "mkdir" path e), h)
    | None =>
        (None, mkHost (mounts h) (dirs h ++ [path]) (refuses h) (trace h))
    end).

(** The recursion of [os.MkdirAll]: nothing to do if the directory is
    there; otherwise make the parent, then the directory. *)
Fixpoint mkdirAll (chain : list string) : IO (option error) :=
  match chain with
  | [] => mret None
  | path :: parents =>
      io (fun h =>
        if dirExists h path then (None, h)
        else match mkdirAll parents h with
             | (Some e, h') => (Some e, h')
             | (None, h') => Mkdir path h'
             end)
  end.

(** [os.MkdirAll(path, 0777)]. *)
Definition MkdirAll (path : string) : IO (option error) :=
  _ ← log (MkdirAllCall path);
  mkdirAll (ancestry path).

(** [linuxproc.ReadMounts(file)]: the rows of the mount table, or an
    error. *)
Definition ReadMounts (file : string) : IO (option (list Mount) * option error) :=
  _ ← log (ReadMountsCall file);
  io (fun h =>
    match refuses h (ReadMountsCall file) with
    | Some e => ((None, Some (PathError "open" file e)), h)
    | None => ((Some (mounts h), None), h)
    end).

(** [exec.Command("mount", device, mountpoint).Run()]: on success the
    mount table has a row for [mountpoint]; [mount] exits with status
    32 when it fails. *)
Definition RunMount (device mountpoint : string) : IO (option error) :=
  _ ← log (MountCall device mountpoint);
  io (fun h =>
    match refuses h (MountCall device mountpoint) with
    | Some _ => (Some (ExitError 32), h)
    | None =>
        (None, mkHost (mounts h ++ [mkMount device mountpoint]) (dirs h)
                      (refuses h) (trace h))
    end).

(** [d] lies strictly below directory [p]. *)
Definition below (p d : string) : bool :=
  match GoString.TrimPrefix (p +:+ "/") d with
  | Some _ => true
  | None => false
  end.

(** Where [d] is after [oldpath] has become [newpath]. *)
Definition moved (oldpath newpath d : string) : string :=
  if String.eqb d oldpath then newpath
  else match GoString.TrimPrefix (oldpath +:+ "/") d with
       | Some rest => newpath +:+ "/" +:+ rest
       | None => d
       end.

(** [os.Rename(oldpath, newpath)] on directories, as rename(2):
    [ENOENT] when [oldpath] does not exist, nothing to do when both
    name the same directory, [EINVAL] when [newpath] lies inside
    [oldpath], [ENOTEMPTY] when [newpath] has entries; otherwise
    [oldpath] and everything below it moves to [newpath]. *)
Definition Rename (oldpath newpath : string) : IO (option error) :=
  _ ← log (RenameCall oldpath newpath);
  io (fun h =>
    let fail e := (Some (LinkError "rename" oldpath newpath e), h) in
    if negb (dirExists h oldpath) then fail ENOENT
    else if String.eqb oldpath newpath then (None, h)
    else if below oldpath newpath then fail EINVAL
    else if existsb (below newpath) (dirs h) then fail ENOTEMPTY
    else match refuses h (RenameCall oldpath newpath) with
         | Some e => fail e
         | None =>
             (None,
              mkHost (mounts h)
                     (map (moved oldpath newpath)
                          (List.filter (fun d => negb (String.eqb d newpath))
                                       (dirs h)))
                     (refuses h) (trace h))
         end).

End OS.

(** ** The Kubernetes objects the provisioners read and build

    Only the fields the programs touch.  A Go map is a [gmap]; reading
    a missing key gives the zero value.  A pointer field is an
    [option]; the claim a request is built from is always there. *)

Record Quantity := mkQuantity { amount : Z; format : string }.
Definition zeroQuantity : Quantity := mkQuantity 0 "".

Abbreviation ResourceList := (gmap string Quantity).
Definition ResourceStorage : string := "storage".

Record LabelSelector := mkLabelSelector { MatchLabels : gmap string string }.

Record PersistentVolumeClaim := mkPVC {
  pvcNamespace : string;                   (* ObjectMeta.Namespace *)
  pvcAccessModes : list string;            (* Spec.AccessModes *)
  pvcSelector : option LabelSelector;      (* Spec.Selector *)
  pvcRequests : ResourceList               (* Spec.Resources.Requests *)
}.

(** [controller.VolumeOptions]. *)
Record VolumeOptions := mkVolumeOptions {
  PersistentVolumeReclaimPolicy : string;
  PVName : string;
  PVC : PersistentVolumeClaim;
  Parameters : gmap string string;
  Tenant : string;
  Stack : string;
  Service : string
}.

Record NFSVolumeSource := mkNFS {
  Server : string;
  Path : string;
  ReadOnly : bool
}.

Record ObjectReference := mkObjectReference { refNamespace : string }.

(** [v1.PersistentVolume]. *)
Record PersistentVolume := mkPV {
  Name : string;                           (* ObjectMeta.Name *)
  Labels : gmap string string;             (* ObjectMeta.Labels *)
  pvReclaimPolicy : string;   (* Spec.PersistentVolumeReclaimPolicy *)
  pvAccessModes : list string;             (* Spec.AccessModes *)
  Capacity : ResourceList;                 (* Spec.Capacity *)
  NFS : option NFSVolumeSource;  (* Spec.PersistentVolumeSource.NFS *)
  ClaimRef : option ObjectReference        (* Spec.ClaimRef *)
}.

(** [m[key]] on a [map[string]string] or a [ResourceList]. *)
Definition index {V : Type} (zero : V) (m : gmap string V) (key : string) : V :=
  default zero (m !! key).

(** How a call ends: it returns, or the goroutine panics. *)
Inductive Outcome (A : Type) :=
  | Returns (a : A)
  | Panics (msg : string).
Arguments Returns {A} a.
Arguments Panics {A} msg.

Definition nilDereference : string :=
  "runtime error: invalid memory address or nil pointer dereference".

(** What both programs share, word for word. *)

Definition mountPath : string := "/persistentvolumes".

Definition inMap (key : string) (m : gmap string string) : bool :=
  match m !! key with
  | Some _ => true
  | None => false
  end.

Definition isMounted (mp : string) : IO bool :=
  '(mps, err) ← OS.ReadMounts "/proc/mounts";
  match mps, err with
  | Some mps, None =>
      mret (existsb (fun m => String.eqb (MountPoint m) mp) mps)
  | _, _ => mret false
  end.

(** ** [nfs-client/cmd/nfs-client-provisioner/provisioner.go] *)

Module NfsClient.

Definition pvName (tenant stack service name : string) : string :=
  tenant +:+ "-" +:+ stack +:+ "-" +:+ service +:+ "-" +:+ name.

Definition mountPoint (server path : string) : string :=
  mountPath +:+ "/" +:+ server +:+ "/" +:+ URL.QueryEscape path.

Definition ensureMount (server path : string) : IO (string * option error) :=
  let mp := mountPoint server path in
  mounted ← isMounted mp;
  if mounted : bool then mret (mp, None)
  else
    err ← OS.MkdirAll mp;
    match err with
    | Some e => mret (mp, Some e)
    | None =>
        err ← OS.RunMount (server +:+ ":" +:+ path) mp;
        mret (mp, err)
    end.

Definition Provision (options : VolumeOptions)
  : IO (option PersistentVolume * option error) :=
  match pvcSelector (PVC options) with
  | Some _ => mret (None, Some (errorString "claim Selector is not supported"))
  | None =>
    let params := Parameters options in
    if negb (inMap "nfsPath" params && inMap "nfsServer" params) then
      mret (None, Some (errorString "nfsPath and nfsServer parameters required"))
    else
      let server := index "" params "nfsServer" in
      let path := index "" params "nfsPath" in
      '(mp, err) ← ensureMount server path;
      match err with
      | Some e =>
          mret (None, Some (errorString ("unable to mount NFS volume: " +:+ Error e)))
      | None =>
          let pvName := pvName (Tenant options) (Stack options)
                               (Service options) (PVName options) in
          err ← OS.MkdirAll (GoPath.Join [mp; pvName]);
          match err with
          | Some e =>
              mret (None, Some (errorString
                ("unable to create directory to provision new pv: " +:+ Error e)))
          | None =>
              let pv := {|
                Name := PVName options;
                Labels := {[ "io.wise2c.tenant" := Tenant options;
                             "io.wise2c.stack" := Stack options;
                             "io.wise2c.service" := Service options ]};
                pvReclaimPolicy := PersistentVolumeReclaimPolicy options;
                pvAccessModes := pvcAccessModes (PVC options);
                Capacity := {[ ResourceStorage :=
                  index zeroQuantity (pvcRequests (PVC options)) ResourceStorage ]};
                NFS := Some {| Server := server;
                               Path := GoPath.Join [path; pvName];
                               ReadOnly := false |};
                ClaimRef := None
              |} in
              mret (Some pv, None)
          end
      end
  end.

Definition Delete (volume : PersistentVolume) : IO (Outcome (option error)) :=
  match NFS volume with
  | None => mret (Panics nilDereference)
  | Some nfs =>
      let server := Server nfs in
      let path := GoPath.Dir (Path nfs) in
      '(mp, err) ← ensureMount server path;
      match err with
      | Some e => mret (Returns (Some e))
      | None =>
          let tenant := index "" (Labels volume) "io.wise2c.tenant" in
          let stack := index "" (Labels volume) "io.wise2c.stack" in
          let service := index "" (Labels volume) "io.wise2c.service" in
          let pvName := pvName tenant stack service (Name volume) in
          let oldPath := GoPath.Join [mp; pvName] in
          let archivePath := GoPath.Join [mp; "archived-" +:+ pvName] in
          err ← OS.Rename oldPath archivePath;
          mret (Returns err)
      end
  end.

End NfsClient.

(** ** [unnamed/part_000] *)

Module Part000.

Definition pvName (ns name : string) : string := ns +:+ "-" +:+ name.

Definition ensureMount (server path mp : string) : IO (option error) :=
  mounted ← isMounted mp;
  if mounted : bool then mret None
  else
    err ← OS.MkdirAll mp;
    match err with
    | Some e => mret (Some e)
    | None => OS.RunMount (server +:+ ":" +:+ path) mp
    end.

Definition Provision (options : VolumeOptions)
  : IO (option PersistentVolume * option error) :=
  match pvcSelector (PVC options) with
  | Some _ => mret (None, Some (errorString "claim Selector is not supported"))
  | None =>
    let params := Parameters options in
    if negb (inMap "nfsPath" params && inMap "nfsServer" params) then
      mret (None, Some (errorString "nfsPath and nfsServer parameters required"))
    else
      let server := index "" params "nfsServer" in
      let path := index "" params "nfsPath" in
      let mountPoint := GoPath.Join [mountPath; server] in
      err ← ensureMount server path mountPoint;
      match err with
      | Some e =>
          mret (None, Some (errorString ("unable to mount NFS volume: " +:+ Error e)))
      | None =>
          let pvName := pvName (pvcNamespace (PVC options)) (PVName options) in
          err ← OS.MkdirAll (GoPath.Join [mountPoint; pvName]);
          match err with
          | Some e =>
              mret (None, Some (errorString
                ("unable to create directory to provision new pv: " +:+ Error e)))
          | None =>
              let pv := {|
                Name := PVName options;
                Labels := ∅;
                pvReclaimPolicy := PersistentVolumeReclaimPolicy options;
                pvAccessModes := pvcAccessModes (PVC options);
                Capacity := {[ ResourceStorage :=
                  index zeroQuantity (pvcRequests (PVC options)) ResourceStorage ]};
                NFS := Some {| Server := server;
                               Path := GoPath.Join [path; pvName];
                               ReadOnly := false |};
                ClaimRef := None
              |} in
              mret (Some pv, None)
          end
      end
  end.

Definition Delete (volume : PersistentVolume) : IO (Outcome (option error)) :=
  match NFS volume with
  | None => mret (Panics nilDereference)
  | Some nfs =>
      let server := Server nfs in
      let path := GoPath.Dir (Path nfs) in
      err ← ensureMount server path (GoPath.Join [mountPath; server]);
      match err with
      | Some e => mret (Returns (Some e))
      | None =>
          match ClaimRef volume with
          | None => mret (Panics nilDereference)
          | Some claimRef =>
              let pvName := pvName (refNamespace claimRef) (Name volume) in
              let oldPath := GoPath.Join [mountPath; server; pvName] in
              let archivePath :=
                GoPath.Join [mountPath; server; "archived-" +:+ pvName] in
              err ← OS.Rename oldPath archivePath;
              mret (Returns err)
          end
      end
  end.

End Part000.

(** ** What the claims speak of *)

(** The spec's names for the two validation errors. *)
Definition UnsupportedSelector : error :=
  errorString "claim Selector is not supported".
Definition MissingParameter : error :=
  errorString "nfsPath and nfsServer parameters required".

Definition isMountCall (c : Call) : bool :=
  match c with
  | MountCall _ _ => true
  | _ => false
  end.

(** How many times the [mount] command has been run. *)
Definition mountCalls (h : Host) : nat :=
  List.length (List.filter isMountCall (trace h)).

(** A host that refuses nothing, with nothing on it, and the request of
    the spec's end-to-end example. *)
Definition noRefusal : Call -> option Errno := fun _ => None.
Definition host0 : Host := mkHost [] [] noRefusal [].
Definition claim0 : PersistentVolumeClaim :=
  mkPVC "acme" ["ReadWriteMany"] None {[ "storage" := mkQuantity 5 "Gi" ]}.
Definition request0 : VolumeOptions :=
  mkVolumeOptions "Delete" "pv-1" claim0
    {[ "nfsServer" := "nfs1"; "nfsPath" := "/export" ]}
    "acme" "web" "svc".

(** A request that also names a selector, and one without parameters. *)
Definition requestWithSelector : VolumeOptions :=
  mkVolumeOptions "Delete" "pv-1"
    (mkPVC "acme" ["ReadWriteMany"] (Some (mkLabelSelector ∅)) ∅)
    ∅ "acme" "web" "svc".
Definition requestWithoutServer : VolumeOptions :=
  mkVolumeOptions "Delete" "pv-1" claim0 {[ "nfsPath" := "/export" ]}
    "acme" "web" "svc".

(** Two requests for different exports of one server. *)
Definition requestA : VolumeOptions :=
  mkVolumeOptions "Delete" "pv-a" claim0
    {[ "nfsServer" := "nfs1"; "nfsPath" := "/export/a" ]} "acme" "web" "svc".
Definition requestB : VolumeOptions :=
  mkVolumeOptions "Delete" "pv-b" claim0
    {[ "nfsServer" := "nfs1"; "nfsPath" := "/export/b" ]} "acme" "web" "svc".

(** A volume that is not an NFS volume. *)
Definition foreignVolume : PersistentVolume :=
  mkPV "pv-1" ∅ "Delete" ["ReadWriteMany"] ∅ None None.

Definition dash : ascii := "-"%char.

(** The directory name [Delete] recomputes: in [provisioner.go] from
    the volume's labels and name, in [part_000] from the claim reference
    and the volume's name. *)
Definition labelledName (volume : PersistentVolume) : string :=
  NfsClient.pvName (index "" (Labels volume) "io.wise2c.tenant")
                   (index "" (Labels volume) "io.wise2c.stack")
                   (index "" (Labels volume) "io.wise2c.service")
                   (Name volume).
Definition referredName (claimRef : ObjectReference) (volume : PersistentVolume)
  : string :=
  Part000.pvName (refNamespace claimRef) (Name volume).

Definition archived (name : string) : string := "archived-" +:+ name.

(** The spec's [Delete] for mount point [M] and directory name [name]:
    make sure the export is mounted, then rename [M/name] to
    [M/archived-name]; the first error is handed back. *)
Definition archive (ensureMounted : IO (option error)) (M name : string)
  : IO (Outcome (option error)) :=
  err ← ensureMounted;
  match err with
  | Some e => mret (Returns (Some e))
  | None =>
      err ← OS.Rename (GoPath.Join [M; name]) (GoPath.Join [M; archived name]);
      mret (Returns err)
  end.

(** [ensureMount] of [provisioner.go], keeping only the error. *)
Definition ensureMounted (server path : string) : IO (option error) :=
  '(_, err) ← NfsClient.ensureMount server path;
  mret err.

(** The end-to-end run of the spec: the volume provisioned for
    [request0] on the empty host, the host after that, and the host
    after the volume has been deleted once. *)
Definition volume0 : PersistentVolume :=
  from_option id foreignVolume (fst (fst (NfsClient.Provision request0 host0))).
Definition hostProvisioned0 : Host := snd (NfsClient.Provision request0 host0).
Definition hostArchived0 : Host := snd (NfsClient.Delete volume0 hostProvisioned0).
Definition nfs0 : NFSVolumeSource :=
  mkNFS "nfs1" "/export/acme-web-svc-pv-1" false.



(** A host on which [/proc/mounts] cannot be read. *)
Definition hostUnreadable : Host :=
  mkHost [] []
    (fun c => match c with ReadMountsCall _ => Some EACCES | _ => None end) [].

(** [request0] with both parameters present and empty. *)
Definition requestEmptyValues : VolumeOptions :=
  mkVolumeOptions "Delete" "pv-1" claim0
    {[ "nfsServer" := ""; "nfsPath" := "" ]} "acme" "web" "svc".

(** [request0] with a trailing slash on the path, and with a slash in
    the tenant. *)
Definition requestTrailingSlash : VolumeOptions :=
  mkVolumeOptions "Delete" "pv-1" claim0
    {[ "nfsServer" := "nfs1"; "nfsPath" := "/export/" ]} "acme" "web" "svc".
Definition requestSlashTenant : VolumeOptions :=
  mkVolumeOptions "Delete" "pv-1" claim0
    {[ "nfsServer" := "nfs1"; "nfsPath" := "/export" ]} "ac/me" "web" "svc".

(** The error [os.Rename] hands back when the old path is missing. *)
Definition renameENOENT (oldPath archivePath : string) : error :=
  LinkError "rename" oldPath archivePath ENOENT.

(** The descriptor the spec asks [Provision] to build for a request
    whose directory name is [dirName]. *)
Definition describes (o : VolumeOptions) (dirName : string)
    (pv : PersistentVolume) : Prop :=
  NFS pv = Some {| Server := index "" (Parameters o) "nfsServer";
                   Path := GoPath.Join [index "" (Parameters o) "nfsPath"; dirName];
                   ReadOnly := false |}
  /\ Capacity pv
     = {[ ResourceStorage :=
            index zeroQuantity (pvcRequests (PVC o)) ResourceStorage ]}
  /\ pvAccessModes pv = pvcAccessModes (PVC o)
  /\ pvReclaimPolicy pv = PersistentVolumeReclaimPolicy o
  /\ Name pv = PVName o.

Ltac io_unfold :=
  unfold mbind, mret, IO_bind, IO_ret, io in *.

(** * Facts about the library functions *)

Section StringFacts.

Lemma append_cons a (s t : string) : String a s +:+ t = String a (s +:+ t).
Proof. reflexivity. Qed.

Lemma append_nil_l (s : string) : "" +:+ s = s.
Proof. reflexivity. Qed.

Lemma append_nil_r (s : string) : s +:+ "" = s.
Proof. induction s as [|a s IH]; [reflexivity|]. now rewrite append_cons, IH. Qed.

Lemma append_assoc (s t u : string) : (s +:+ t) +:+ u = s +:+ (t +:+ u).
Proof.
  induction s as [|a s IH]; [reflexivity|].
  now rewrite !append_cons, IH.
Qed.

Lemma append_eq_nil (s t : string) : s +:+ t = "" -> s = "" /\ t = "".
Proof.
  destruct s; [rewrite append_nil_l; now intros ->|].
  rewrite append_cons. discriminate.
Qed.

Lemma append_inv_head (s t u : string) : s +:+ t = s +:+ u -> t = u.
Proof.
  induction s as [|a s IH]; [trivial|].
  rewrite !append_cons. intros H. injection H as H. auto.
Qed.

Lemma length_append (s t : string) :
  String.length (s +:+ t) = String.length s + String.length t.
Proof.
  induction s as [|a s IH]; [reflexivity|].
  rewrite append_cons. simpl. now rewrite IH.
Qed.

Lemma concat_cons2 sep (x y : string) l :
  String.concat sep (x :: y :: l) = x +:+ sep +:+ String.concat sep (y :: l).
Proof. reflexivity. Qed.

Lemma concat_snoc sep (l : list string) (n : string) :
  l <> [] -> String.concat sep (l ++ [n]) = String.concat sep l +:+ sep +:+ n.
Proof.
  induction l as [|x l IH]; [congruence|]. intros _.
  destruct l as [|y l]; [reflexivity|].
  change ((x :: y :: l) ++ [n]) with (x :: y :: (l ++ [n])).
  rewrite !concat_cons2.
  change (y :: l ++ [n]) with ((y :: l) ++ [n]).
  rewrite IH by discriminate. now rewrite !append_assoc.
Qed.

End StringFacts.

Module SplitFacts.
Import GoString.

Lemma Split_not_nil c s : Split c s <> [].
Proof.
  destruct s as [|a s]; simpl; [discriminate|].
  destruct (Ascii.eqb a c); [discriminate|].
  destruct (Split c s); discriminate.
Qed.

(** Splitting distributes over a separator. *)
Lemma Split_app c (a b : string) :
  Split c (a +:+ String c b) = Split c a ++ Split c b.
Proof.
  induction a as [|d a IH].
  - rewrite append_nil_l. simpl. now rewrite Ascii.eqb_refl.
  - rewrite append_cons. simpl. rewrite IH.
    destruct (Ascii.eqb d c); [reflexivity|].
    destruct (Split c a) eqn:E; [now apply Split_not_nil in E|reflexivity].
Qed.

Lemma Split_free c (s : string) : Contains c s = false -> Split c s = [s].
Proof.
  induction s as [|d s IH]; [reflexivity|]. simpl.
  intros [H1 H2]%orb_false_iff. now rewrite H1, IH.
Qed.

Lemma Contains_app c (s t : string) :
  Contains c (s +:+ t) = Contains c s || Contains c t.
Proof.
  induction s as [|d s IH]; [reflexivity|].
  rewrite append_cons. simpl. now rewrite IH, orb_assoc.
Qed.

(** Writing a slash after every element but the last gives back the
    string. *)
Lemma concat_Split_slashes c (p : string) :
  String.concat "" (map (fun e => e +:+ String c "") (Split c p)) = p +:+ String c "".
Proof.
  induction p as [|d p IH]; [reflexivity|]. simpl.
  destruct (Ascii.eqb_spec d c) as [->|_].
  - pose proof (Split_not_nil c p) as Hne.
    destruct (Split c p) as [|w ws]; [congruence|].
    cbn [map]. rewrite concat_cons2. cbn [map] in IH. rewrite IH.
    reflexivity.
  - pose proof (Split_not_nil c p) as Hne.
    destruct (Split c p) as [|w ws]; [congruence|].
    cbn [map] in *. destruct ws as [|w' ws].
    + cbn in IH |- *. rewrite append_cons. now rewrite IH.
    + cbn [map] in *. rewrite concat_cons2 in *.
      rewrite append_cons, append_cons. now rewrite IH.
Qed.

Lemma TrimPrefix_app (pre s rest : string) :
  TrimPrefix pre s = Some rest <-> s = pre +:+ rest.
Proof.
  revert s. induction pre as [|a pre IH]; intros s.
  - simpl. rewrite append_nil_l. split; [now intros [= ->]| now intros ->].
  - destruct s as [|b s]; simpl.
    + split; [discriminate|]. rewrite append_cons. discriminate.
    + rewrite append_cons. destruct (Ascii.eqb_spec a b) as [->|Hne].
      * rewrite IH. split; [now intros ->| now intros [= ->]].
      * split; [discriminate|]. intros [= -> _]. congruence.
Qed.

End SplitFacts.

Module PathFacts.
Import GoString GoPath SplitFacts.

Lemma plain_inv e :
  plain e = true ->
  Contains slash e = false /\ e <> "" /\ e <> "." /\ e <> "..".
Proof.
  unfold plain. rewrite !andb_true_iff, !negb_true_iff, !String.eqb_neq.
  tauto.
Qed.

Lemma rooted_app (p q : string) : p <> "" -> rooted (p +:+ q) = rooted p.
Proof. destruct p; [congruence|reflexivity]. Qed.

Lemma cleanStep_plain r out e : plain e = true -> cleanStep r out e = e :: out.
Proof.
  intros (_ & H1 & H2 & H3)%plain_inv. unfold cleanStep.
  apply String.eqb_neq in H1, H2, H3. now rewrite H1, H2, H3.
Qed.

Lemma cleanElems_snoc_plain r es e :
  plain e = true -> cleanElems r (es ++ [e]) = cleanElems r es ++ [e].
Proof.
  intros H. unfold cleanElems. rewrite fold_left_app. simpl.
  now rewrite cleanStep_plain.
Qed.

Lemma cleanElems_snoc_empty r es : cleanElems r (es ++ [""]) = cleanElems r es.
Proof. unfold cleanElems. now rewrite fold_left_app. Qed.

Lemma concat_snoc_not_nil sep (l : list string) (n : string) :
  n <> "" -> String.concat sep (l ++ [n]) <> "".
Proof.
  intros Hn. destruct l as [|x l]; [exact Hn|].
  rewrite concat_snoc by discriminate.
  intros (_ & (_ & ?)%append_eq_nil)%append_eq_nil. contradiction.
Qed.

Lemma render_snoc r (l : list string) (n : string) :
  l <> [] -> render r (l ++ [n]) = render r l +:+ "/" +:+ n.
Proof.
  intros H. unfold render, GoString.Join.
  now rewrite concat_snoc, append_assoc.
Qed.

Lemma render_snoc_not_nil r (l : list string) (n : string) :
  n <> "" -> render r (l ++ [n]) <> "".
Proof.
  intros Hn [_ H]%append_eq_nil. revert H. now apply concat_snoc_not_nil.
Qed.

(** Cleaning a path extended by a proper element: the element is
    written after what the path cleans to. *)
Lemma Clean_slash_plain (p n : string) :
  p <> "" -> plain n = true ->
  Clean (p +:+ "/" +:+ n)
  = render (rooted p) (cleanElems (rooted p) (Split slash p) ++ [n]).
Proof.
  intros Hp Hn. unfold Clean.
  rewrite rooted_app by assumption.
  change ("/" +:+ n) with (String slash n). rewrite Split_app.
  destruct (plain_inv _ Hn) as (Hfree & Hne & _).
  rewrite (Split_free _ _ Hfree), cleanElems_snoc_plain by assumption.
  destruct (String.eqb_spec
    (render (rooted p) (cleanElems (rooted p) (Split slash p) ++ [n])) "")
    as [E|_]; [|reflexivity].
  now apply render_snoc_not_nil in E.
Qed.

Lemma Clean_trailing_slash (p : string) : p <> "" -> Clean (p +:+ "/") = Clean p.
Proof.
  intros Hp. unfold Clean. rewrite rooted_app by assumption.
  change "/" with (String slash ""). rewrite Split_app. simpl (Split slash "").
  now rewrite cleanElems_snoc_empty.
Qed.

Lemma Join_two (p n : string) : p <> "" -> Join [p; n] = Clean (p +:+ "/" +:+ n).
Proof.
  intros Hp. simpl. apply String.eqb_neq in Hp. now rewrite Hp.
Qed.

Lemma Clean_not_nil (p : string) : Clean p <> "".
Proof.
  unfold Clean.
  destruct (String.eqb_spec (render (rooted p) (cleanElems (rooted p) (Split slash p))) "");
    [discriminate|assumption].
Qed.

(** [path.Dir] undoes [filepath.Join] with a proper element, on a
    path that is already clean. *)
Lemma Dir_Join (p n : string) :
  Clean p = p -> plain n = true -> Dir (Join [p; n]) = p.
Proof.
  intros Hc Hn.
  assert (Hp : p <> "") by (rewrite <- Hc; apply Clean_not_nil).
  rewrite Join_two, Clean_slash_plain by assumption.
  destruct (plain_inv _ Hn) as (Hfree & Hne & _).
  unfold Clean in Hc.
  destruct (cleanElems (rooted p) (Split slash p)) as [|t T] eqn:ET.
  - destruct (rooted p); vm_compute in Hc; subst p; clear ET Hp.
    + unfold Dir, splitDir.
      change (render true ([] ++ [n])) with (String slash n). cbn [Split].
      rewrite Ascii.eqb_refl, (Split_free _ _ Hfree). reflexivity.
    + unfold Dir, splitDir.
      change (render false ([] ++ [n])) with n.
      rewrite (Split_free _ _ Hfree). reflexivity.
  - rewrite render_snoc by discriminate.
    destruct (String.eqb_spec (render (rooted p) (t :: T)) "") as [E|_].
    + subst p. vm_compute in ET. discriminate.
    + rewrite Hc. unfold Dir, splitDir.
      change ("/" +:+ n) with (String slash n).
      rewrite Split_app, (Split_free _ _ Hfree), removelast_last.
      change (fun e : string => e +:+ "/") with (fun e : string => e +:+ String slash "").
      rewrite concat_Split_slashes.
      change (String slash "") with "/".
      rewrite Clean_trailing_slash by assumption.
      unfold Clean. rewrite ET.
      destruct (String.eqb_spec (render (rooted p) (t :: T)) ""); congruence.
Qed.

(** Two proper elements joined to the same path give different
    results unless they are the same. *)
Lemma Join_last_inj (p n n' : string) :
  p <> "" -> plain n = true -> plain n' = true ->
  Join [p; n] = Join [p; n'] -> n = n'.
Proof.
  intros Hp Hn Hn'. rewrite !Join_two, !Clean_slash_plain by assumption.
  destruct (cleanElems (rooted p) (Split slash p)) as [|t T].
  - unfold render. cbn. intros H. now apply append_inv_head in H.
  - rewrite !render_snoc by discriminate.
    intros H. apply append_inv_head in H. now apply append_inv_head in H.
Qed.

(** *** What [Clean] writes is stable under [Clean] *)

Lemma Split_free_all c (s : string) :
  Forall (fun e => Contains c e = false) (Split c s).
Proof.
  induction s as [|d s IH]; simpl.
  - repeat constructor.
  - destruct (Ascii.eqb d c) eqn:E.
    + constructor; [reflexivity|assumption].
    + destruct (Split c s) as [|w ws]; [repeat constructor; simpl; now rewrite E|].
      inversion IH; subst. constructor; [|assumption]. simpl. now rewrite E.
Qed.

Lemma Split_concat c (l : list string) :
  l <> [] -> Forall (fun e => Contains c e = false) l ->
  Split c (String.concat (String c "") l) = l.
Proof.
  induction l as [|x l IH]; [congruence|]. intros _ H.
  inversion H as [|? ? Hx Hl]; subst.
  destruct l as [|y l]; [now apply Split_free|].
  rewrite concat_cons2. change (String c "" +:+ String.concat (String c "") (y :: l))
    with (String c (String.concat (String c "") (y :: l))).
  rewrite Split_app, (Split_free _ _ Hx), IH; [reflexivity|discriminate|assumption].
Qed.

Lemma normal_nil r : normal r [].
Proof. exists [], 0. repeat split; constructor. Qed.

Lemma cleanStep_normal r out e :
  Contains slash e = false -> normal r out -> normal r (cleanStep r out e).
Proof.
  intros He (P & k & -> & HP & Hk). unfold cleanStep.
  destruct (String.eqb_spec e ""); [now exists P, k|].
  destruct (String.eqb_spec e "."); [now exists P, k|].
  destruct (String.eqb_spec e "..") as [->|Hdd].
  - destruct P as [|t P]; cbn [app].
    + destruct k as [|k]; cbn [repeat].
      * destruct r; [apply normal_nil|].
        exists [], 1. repeat split; [constructor|discriminate].
      * rewrite String.eqb_refl. exists [], (S (S k)).
        repeat split; [constructor|]. intros ->. now specialize (Hk eq_refl).
    + inversion HP as [|? ? Ht HP']; subst.
      destruct (plain_inv _ Ht) as (_ & _ & _ & Htdd).
      apply String.eqb_neq in Htdd. rewrite Htdd. now exists P, k.
  - exists (e :: P), k. split; [reflexivity|]. split; [|assumption].
    constructor; [|assumption]. unfold plain.
    rewrite He. apply String.eqb_neq in n, n0, Hdd. now rewrite n, n0, Hdd.
Qed.

Lemma fold_normal r es out :
  Forall (fun e => Contains slash e = false) es -> normal r out ->
  normal r (fold_left (cleanStep r) es out).
Proof.
  revert out. induction es as [|e es IH]; intros out H Hn; [assumption|].
  inversion H; subst. simpl. apply IH; [assumption|].
  now apply cleanStep_normal.
Qed.

Lemma fold_plain r (l acc : list string) :
  Forall (fun e => plain e = true) l ->
  fold_left (cleanStep r) l acc = rev l ++ acc.
Proof.
  revert acc. induction l as [|e l IH]; intros acc H; [reflexivity|].
  inversion H; subst. simpl. rewrite cleanStep_plain by assumption.
  rewrite IH by assumption. now rewrite <- app_assoc.
Qed.

Lemma fold_dots k j :
  fold_left (cleanStep false) (repeat ".." k) (repeat ".." j) = repeat ".." (k + j).
Proof.
  revert j. induction k as [|k IH]; intros j; [reflexivity|].
  cbn [repeat fold_left].
  replace (cleanStep false (repeat ".." j) "..") with (repeat ".." (S j)).
  - rewrite IH. f_equal. lia.
  - destruct j; reflexivity.
Qed.

Lemma rev_repeat {A} (x : A) k : rev (repeat x k) = repeat x k.
Proof.
  induction k as [|k IH]; [reflexivity|].
  cbn [repeat rev]. rewrite IH. symmetry. apply repeat_cons.
Qed.

Lemma normal_refold r out :
  normal r out -> fold_left (cleanStep r) (rev out) [] = out.
Proof.
  intros (P & k & -> & HP & Hk).
  rewrite rev_app_distr, rev_repeat, fold_left_app.
  assert (E : fold_left (cleanStep r) (repeat ".." k) [] = repeat ".." k).
  { destruct r; [now rewrite Hk|].
    change (@nil string) with (repeat ".." 0).
    rewrite fold_dots. f_equal. lia. }
  rewrite E, fold_plain, rev_involutive; [reflexivity|].
  now apply List.Forall_rev.
Qed.

Lemma normal_free r out :
  normal r out -> Forall (fun e => Contains slash e = false /\ e <> "") out.
Proof.
  intros (P & k & -> & HP & _). apply List.Forall_app. split.
  - eapply List.Forall_impl; [|exact HP]. intros e He.
    destruct (plain_inv _ He) as (? & ? & _). now split.
  - apply List.Forall_forall. intros e He%repeat_spec. subst. now split.
Qed.

Lemma concat_nil_inv sep (l : list string) :
  Forall (fun e => e <> "") l -> String.concat sep l = "" -> l = [].
Proof.
  destruct l as [|x l]; [reflexivity|]. intros H E.
  inversion H; subst. destruct l as [|y l].
  - simpl in E. contradiction.
  - rewrite concat_cons2 in E. apply append_eq_nil in E as [? _]. contradiction.
Qed.

(** Cleaning the cleaned path writes the same elements again. *)
Lemma Clean_elems (x : string) :
  fold_left (cleanStep (rooted x)) (Split slash (Clean x)) []
  = fold_left (cleanStep (rooted x)) (Split slash x) [].
Proof.
  set (r := rooted x). set (S := fold_left (cleanStep r) (Split slash x) []).
  assert (HS : normal r S).
  { apply fold_normal; [apply Split_free_all | apply normal_nil]. }
  assert (HT : normal r (rev (rev S))) by now rewrite rev_involutive.
  pose proof (normal_free _ _ HS) as Hfree.
  apply List.Forall_rev in Hfree.
  unfold Clean. fold r. unfold cleanElems. fold S.
  destruct (rev S) as [|t T] eqn:ET.
  - assert (S = []) as -> by (apply (f_equal (@rev string)) in ET;
                              now rewrite rev_involutive in ET).
    destruct r; reflexivity.
  - assert (Hsp : Split slash (String.concat "/" (t :: T)) = t :: T).
    { apply (Split_concat slash); [discriminate|].
      eapply List.Forall_impl; [|exact Hfree]. now intros ? [? _]. }
    assert (Hre : fold_left (cleanStep r) (t :: T) [] = S).
    { rewrite <- ET. apply normal_refold. assumption. }
    destruct r.
    + change (render true (t :: T)) with (String slash (String.concat "/" (t :: T))).
      cbn [String.eqb]. cbn [Split]. rewrite Ascii.eqb_refl, Hsp. exact Hre.
    + change (render false (t :: T)) with (String.concat "/" (t :: T)).
      destruct (String.eqb_spec (String.concat "/" (t :: T)) "") as [E|_].
      * apply concat_nil_inv in E; [discriminate|].
        eapply List.Forall_impl; [|exact Hfree]. now intros ? [_ ?].
      * rewrite Hsp. exact Hre.
Qed.

Lemma rooted_Clean (x : string) : rooted (Clean x) = rooted x.
Proof.
  unfold Clean. set (r := rooted x).
  pose proof (normal_free r (fold_left (cleanStep r) (Split slash x) [])) as Hfree.
  unfold cleanElems.
  destruct r eqn:Er.
  - reflexivity.
  - lapply Hfree; [clear Hfree; intros Hfree|
      apply fold_normal; [apply Split_free_all | apply normal_nil]].
    apply List.Forall_rev in Hfree.
    destruct (rev (fold_left (cleanStep false) (Split slash x) [])) as [|t T];
      [reflexivity|].
    change (render false (t :: T)) with (String.concat "/" (t :: T)).
    destruct (String.eqb_spec (String.concat "/" (t :: T)) ""); [reflexivity|].
    inversion Hfree as [|? ? [Ht Hne] _]; subst.
    destruct t as [|c t]; [congruence|].
    simpl in Ht. apply orb_false_iff in Ht as [Hc _].
    destruct T; simpl; exact Hc.
Qed.

(** [Clean] may be applied to the front of a path before the rest is
    appended. *)
Lemma Clean_slash_Clean (x y : string) :
  x <> "" -> Clean (Clean x +:+ "/" +:+ y) = Clean (x +:+ "/" +:+ y).
Proof.
  intros Hx. unfold Clean at 1 3.
  rewrite !rooted_app, rooted_Clean by (assumption || apply Clean_not_nil).
  change ("/" +:+ y) with (String slash y). rewrite !Split_app.
  unfold cleanElems. rewrite !fold_left_app, Clean_elems. reflexivity.
Qed.

Lemma Join_Join (a b c : string) :
  a <> "" -> Join [Join [a; b]; c] = Join [a; b; c].
Proof.
  intros Ha. rewrite (Join_two a b) by assumption.
  rewrite Join_two by apply Clean_not_nil.
  rewrite Clean_slash_Clean by (intros [? _]%append_eq_nil; contradiction).
  simpl. apply String.eqb_neq in Ha. rewrite Ha.
  now rewrite append_assoc.
Qed.

End PathFacts.

Module URLFacts.
Import URL.

(** Reading back one escaped byte. *)
Lemma unescape_escape_byte (c : ascii) (s : string) :
  QueryUnescape (QueryEscape (String c s))
  = option_map (String c) (QueryUnescape (QueryEscape s)).
Proof.
  destruct c as [[] [] [] [] [] [] [] []]; reflexivity.
Qed.

(** [QueryUnescape] reads back what [QueryEscape] wrote. *)
Lemma QueryUnescape_QueryEscape (s : string) :
  QueryUnescape (QueryEscape s) = Some s.
Proof.
  induction s as [|c s IH]; [reflexivity|].
  now rewrite unescape_escape_byte, IH.
Qed.

Lemma QueryEscape_inj (s t : string) : QueryEscape s = QueryEscape t -> s = t.
Proof.
  intros H. apply (f_equal QueryUnescape) in H.
  rewrite !QueryUnescape_QueryEscape in H. congruence.
Qed.

End URLFacts.

Module OSFacts.
Import OS SplitFacts.

Lemma dirExists_In h p : dirExists h p = true <-> In p (dirs h).
Proof.
  unfold dirExists. rewrite existsb_exists. split.
  - intros (d & Hd & E). apply String.eqb_eq in E. now subst.
  - intros H. exists p. split; [assumption|apply String.eqb_refl].
Qed.

Lemma dirExists_false h p : dirExists h p = false <-> ~ In p (dirs h).
Proof.
  rewrite <- dirExists_In. destruct (dirExists h p); split; congruence.
Qed.


(** *** [os.MkdirAll] *)

Lemma length_string_of_list_ascii l :
  String.length (string_of_list_ascii l) = List.length l.
Proof. induction l as [|a l IH]; simpl; congruence. Qed.

Lemma length_list_ascii_of_string s :
  List.length (list_ascii_of_string s) = String.length s.
Proof. induction s as [|a s IH]; simpl; congruence. Qed.

Lemma length_dropWhile {A} (f : A -> bool) l :
  List.length (dropWhile f l) <= List.length l.
Proof.
  induction l as [|x l IH]; simpl; [lia|]. destruct (f x); simpl; lia.
Qed.

Lemma parentDir_shorter (p : string) :
  parentDir p <> "" -> String.length (parentDir p) < String.length p.
Proof.
  unfold parentDir.
  set (r := dropWhile _ (dropWhile _ _)).
  assert (Hr : List.length r <= String.length p).
  { unfold r. etransitivity; [apply length_dropWhile|].
    etransitivity; [apply length_dropWhile|].
    now rewrite length_rev, length_list_ascii_of_string. }
  rewrite length_string_of_list_ascii, length_rev.
  destruct r as [|c r]; simpl in *; [congruence|lia].
Qed.

Lemma lineage_shorter fuel (p q : string) :
  In q (lineage fuel p) -> q = p \/ String.length q < String.length p.
Proof.
  revert p. induction fuel as [|fuel IH]; intros p; simpl; [tauto|].
  intros [->|H]; [now left|right].
  destruct (String.eqb_spec (parentDir p) "") as [_|Hne]; [destruct H|].
  pose proof (parentDir_shorter p Hne).
  destruct (IH _ H) as [->|?]; lia.
Qed.

Lemma lineage_tail fuel (p q : string) :
  In q (tl (lineage fuel p)) -> q <> p.
Proof.
  destruct fuel as [|fuel]; simpl; [tauto|].
  destruct (String.eqb_spec (parentDir p) "") as [_|Hne]; [tauto|].
  intros H%lineage_shorter. pose proof (parentDir_shorter p Hne).
  assert (String.length q < String.length p) by (destruct H as [->|H]; lia).
  intros ->. lia.
Qed.

Lemma mkdirAll_frame chain h e h' :
  mkdirAll chain h = (e, h') ->
  mounts h' = mounts h /\ refuses h' = refuses h /\ trace h' = trace h
  /\ exists new, dirs h' = dirs h ++ new /\ incl new chain.
Proof.
  revert h e h'. induction chain as [|p ps IH]; intros h e h'; simpl.
  - io_unfold. intros [= <- <-]. repeat split.
    exists []. now rewrite app_nil_r.
  - unfold io. destruct (dirExists h p).
    + intros [= <- <-]. repeat split. exists []. now rewrite app_nil_r.
    + destruct (mkdirAll ps h) as [[e1|] h1] eqn:E1;
        destruct (IH _ _ _ E1) as (Hm & Hr & Ht & new & Hd & Hincl).
      * intros [= <- <-]. repeat split; try assumption.
        exists new. split; [assumption|]. now apply incl_tl.
      * unfold Mkdir, io. destruct (refuses h1 (MkdirCall p)).
        -- intros [= <- <-]. repeat split; try assumption.
           exists new. split; [assumption|]. now apply incl_tl.
        -- intros [= <- <-]. cbn. repeat split; try assumption.
           exists (new ++ [p]). rewrite Hd, app_assoc. split; [reflexivity|].
           apply incl_app; [now apply incl_tl|].
           intros x [<-|[]]. now left.
Qed.

Lemma mkdirAll_ok p ps h h' :
  mkdirAll (p :: ps) h = (None, h') -> dirExists h' p = true.
Proof.
  simpl. unfold io. destruct (dirExists h p) eqn:E.
  - now intros [= <-].
  - destruct (mkdirAll ps h) as [[e1|] h1]; [discriminate|].
    unfold Mkdir, io. destruct (refuses h1 (MkdirCall p)); [discriminate|].
    intros [= <-]. apply dirExists_In. cbn. apply in_or_app. right. now left.
Qed.


Lemma mkdirAll_failed p ps h e h' :
  (forall q, In q ps -> q <> p) ->
  mkdirAll (p :: ps) h = (Some e, h') -> dirExists h' p = false.
Proof.
  intros Hps. simpl. unfold io. destruct (dirExists h p) eqn:E; [discriminate|].
  apply dirExists_false in E.
  destruct (mkdirAll ps h) as [[e1|] h1] eqn:E1;
    destruct (mkdirAll_frame _ _ _ _ E1) as (_ & _ & _ & new & Hd & Hincl).
  - intros [= <- <-]. apply dirExists_false. rewrite Hd.
    intros [?|H%Hincl]%in_app_or; [contradiction|]. now apply Hps in H.
  - unfold Mkdir, io. destruct (refuses h1 (MkdirCall p)); [|discriminate].
    intros [= <- <-]. apply dirExists_false. rewrite Hd.
    intros [?|H%Hincl]%in_app_or; [contradiction|]. now apply Hps in H.
Qed.

Lemma MkdirAll_frame path h e h' :
  MkdirAll path h = (e, h') ->
  mounts h' = mounts h /\ refuses h' = refuses h
  /\ trace h' = trace h ++ [MkdirAllCall path]
  /\ exists new, dirs h' = dirs h ++ new /\ incl new (ancestry path).
Proof.
  unfold MkdirAll. io_unfold. cbn [log].
  intros H. apply mkdirAll_frame in H. cbn in H. exact H.
Qed.

Lemma MkdirAll_ok path h h' :
  MkdirAll path h = (None, h') -> dirExists h' path = true.
Proof.
  unfold MkdirAll, ancestry. io_unfold. cbn [log lineage]. apply mkdirAll_ok.
Qed.


Lemma MkdirAll_failed path h e h' :
  MkdirAll path h = (Some e, h') -> dirExists h' path = false.
Proof.
  unfold MkdirAll, ancestry. io_unfold. cbn [log].
  change (lineage (S (String.length path)) path)
    with (path :: tl (lineage (S (String.length path)) path)).
  apply mkdirAll_failed. intros q. apply lineage_tail.
Qed.

(** *** [os.Rename] *)

Lemma Rename_frame oldpath newpath h e h' :
  Rename oldpath newpath h = (e, h') ->
  mounts h' = mounts h /\ refuses h' = refuses h
  /\ trace h' = trace h ++ [RenameCall oldpath newpath].
Proof.
  unfold Rename. io_unfold. cbn [log].
  repeat match goal with
         | |- context [if ?b then _ else _] => destruct b
         | |- context [match ?o with Some _ => _ | None => _ end] => destruct o
         end; intros [= <- <-]; repeat split.
Qed.

Lemma Rename_missing oldpath newpath h :
  dirExists h oldpath = false ->
  Rename oldpath newpath h
  = (Some (LinkError "rename" oldpath newpath ENOENT),
     logged (RenameCall oldpath newpath) h).
Proof.
  intros H. unfold Rename. io_unfold. cbn [log].
  unfold dirExists in *. cbn [dirs]. now rewrite H.
Qed.

Lemma moved_not_old oldpath newpath (ds : list string) d :
  oldpath <> newpath -> In oldpath ds ->
  existsb (below newpath) ds = false ->
  moved oldpath newpath d <> oldpath.
Proof.
  intros Hne Hin Hbelow. unfold moved.
  destruct (String.eqb_spec d oldpath) as [->|Hd]; [congruence|].
  destruct (GoString.TrimPrefix (oldpath +:+ "/") d) as [rest|] eqn:E;
    [|assumption].
  intros Heq.
  assert (Hb : below newpath oldpath = true).
  { unfold below.
    assert (GoString.TrimPrefix (newpath +:+ "/") oldpath = Some rest) as ->;
      [|reflexivity].
    apply TrimPrefix_app. now rewrite append_assoc. }
  assert (existsb (below newpath) ds = true); [|congruence].
  apply existsb_exists. now exists oldpath.
Qed.

(** After a rename that went through, the old path is gone and the new
    one is there. *)
Lemma Rename_ok oldpath newpath h h' :
  oldpath <> newpath ->
  Rename oldpath newpath h = (None, h') ->
  dirExists h' oldpath = false /\ dirExists h' newpath = true.
Proof.
  intros Hne. unfold Rename. io_unfold. cbn [log].
  destruct (negb _) eqn:Eex; [discriminate|].
  apply negb_false_iff, dirExists_In in Eex. cbn [dirs] in Eex.
  apply String.eqb_neq in Hne. rewrite Hne. apply String.eqb_neq in Hne.
  destruct (below oldpath newpath); [discriminate|].
  cbn [dirs]. destruct (existsb (below newpath) (dirs h)) eqn:Eb; [discriminate|].
  destruct (refuses _ _); [discriminate|].
  intros [= <-]. split.
  - apply dirExists_false. cbn [dirs]. intros (d & Hd & _)%in_map_iff.
    revert Hd. now apply moved_not_old with (ds := dirs h).
  - apply dirExists_In. cbn [dirs]. apply in_map_iff. exists oldpath. split.
    + unfold moved. now rewrite String.eqb_refl.
    + apply filter_In. split; [assumption|].
      now apply negb_true_iff, String.eqb_neq.
Qed.

End OSFacts.

(** * Facts about the provisioners *)

Module ProgramFacts.
Import OS OSFacts.

Lemma isMounted_host mp h :
  snd (isMounted mp h) = logged (ReadMountsCall "/proc/mounts") h.
Proof.
  unfold isMounted, ReadMounts. io_unfold. cbn [log].
  cbn [refuses]. destruct (refuses h _); reflexivity.
Qed.

Lemma isMounted_pair mp h :
  isMounted mp h = (fst (isMounted mp h), logged (ReadMountsCall "/proc/mounts") h).
Proof. rewrite <- (isMounted_host mp). now destruct (isMounted mp h). Qed.


Lemma mountCalls_logged c h :
  mountCalls (logged c h) = mountCalls h + (if isMountCall c then 1 else 0).
Proof.
  unfold mountCalls, logged. cbn [log snd trace].
  rewrite List.filter_app, length_app. cbn [List.filter].
  destruct (isMountCall c); reflexivity.
Qed.

Lemma mountCalls_trace h h' : trace h' = trace h -> mountCalls h' = mountCalls h.
Proof. unfold mountCalls. now intros ->. Qed.

(** *** [ensureMount] *)

Lemma ensureMount_mounted server path mp h :
  fst (isMounted mp h) = true ->
  Part000.ensureMount server path mp h
  = (None, logged (ReadMountsCall "/proc/mounts") h).
Proof.
  intros H. unfold Part000.ensureMount. io_unfold.
  rewrite isMounted_pair, H. reflexivity.
Qed.

Lemma RunMount_frame device mp h e h' :
  RunMount device mp h = (e, h') ->
  refuses h' = refuses h /\ dirs h' = dirs h
  /\ trace h' = trace h ++ [MountCall device mp]
  /\ (e <> None -> mounts h' = mounts h).
Proof.
  unfold RunMount. io_unfold. cbn [log]. cbn [refuses].
  destruct (refuses h _); intros [= <- <-]; repeat split; congruence.
Qed.

Lemma ensureMount_frame server path mp h e h' :
  Part000.ensureMount server path mp h = (e, h') ->
  refuses h' = refuses h
  /\ mountCalls h' <= mountCalls h + 1
  /\ (exists new, dirs h' = dirs h ++ new /\ incl new (ancestry mp))
  /\ (e <> None -> mounts h' = mounts h).
Proof.
  unfold Part000.ensureMount. io_unfold. rewrite isMounted_pair.
  destruct (fst (isMounted mp h)).
  - intros [= <- <-]. rewrite mountCalls_logged. cbn.
    repeat split; [lia|]. exists []. now rewrite app_nil_r.
  - destruct (MkdirAll mp _) as [[e1|] h1] eqn:E1;
      destruct (MkdirAll_frame _ _ _ _ E1) as (Hm & Hr & Ht & new & Hd & Hincl);
      cbn [logged log snd mounts refuses dirs trace] in Hm, Hr, Ht, Hd.
    + intros [= <- <-]. split; [assumption|]. split; [|split].
      * unfold mountCalls. rewrite Ht.
        rewrite !List.filter_app, !length_app. cbn. lia.
      * now exists new.
      * intros _. exact Hm.
    + intros H. destruct (RunMount_frame _ _ _ _ _ H) as (Hr' & Hd' & Ht' & Hm').
      split; [congruence|]. split; [|split].
      * unfold mountCalls. rewrite Ht', Ht.
        rewrite !List.filter_app, !length_app. cbn. lia.
      * exists new. split; [congruence|assumption].
      * intros He. rewrite Hm' by assumption. exact Hm.
Qed.

(** The two programs mount in the same way; [provisioner.go] computes
    the mount point itself and hands it back. *)
Lemma ensureMount_shared server path h :
  NfsClient.ensureMount server path h
  = let (e, h') := Part000.ensureMount server path
                     (NfsClient.mountPoint server path) h in
    ((NfsClient.mountPoint server path, e), h').
Proof.
  unfold NfsClient.ensureMount, Part000.ensureMount. io_unfold.
  destruct (isMounted _ h) as [[] h1]; [reflexivity|].
  destruct (MkdirAll _ h1) as [[e|] h2]; [reflexivity|].
  destruct (RunMount _ _ h2); reflexivity.
Qed.

Lemma ensureMount_fst server path h :
  fst (fst (NfsClient.ensureMount server path h)) = NfsClient.mountPoint server path.
Proof.
  rewrite ensureMount_shared. now destruct (Part000.ensureMount _ _ _ h).
Qed.

(** *** [Delete] *)

Lemma Delete_unfold volume nfs h :
  NFS volume = Some nfs ->
  NfsClient.Delete volume h
  = let '((mp, err), h1) :=
      NfsClient.ensureMount (Server nfs) (GoPath.Dir (Path nfs)) h in
    match err with
    | Some e => (Returns (Some e), h1)
    | None =>
        let (err, h2) := Rename (GoPath.Join [mp; labelledName volume])
                           (GoPath.Join [mp; archived (labelledName volume)]) h1 in
        (Returns err, h2)
    end.
Proof.
  intros E. unfold NfsClient.Delete. rewrite E. io_unfold.
  destruct (NfsClient.ensureMount _ _ h) as [[mp [e|]] h1]; reflexivity.
Qed.

Lemma Delete000_unfold volume nfs claimRef h :
  NFS volume = Some nfs -> ClaimRef volume = Some claimRef ->
  Part000.Delete volume h
  = let (err, h1) :=
      Part000.ensureMount (Server nfs) (GoPath.Dir (Path nfs))
        (GoPath.Join [mountPath; Server nfs]) h in
    match err with
    | Some e => (Returns (Some e), h1)
    | None =>
        let (err, h2) :=
          Rename (GoPath.Join [mountPath; Server nfs; referredName claimRef volume])
            (GoPath.Join [mountPath; Server nfs;
                          archived (referredName claimRef volume)]) h1 in
        (Returns err, h2)
    end.
Proof.
  intros E E'. unfold Part000.Delete. rewrite E, E'. io_unfold.
  destruct (Part000.ensureMount _ _ _ h) as [[e|] h1]; reflexivity.
Qed.

Lemma plain_archived name :
  GoString.Contains GoPath.slash name = false ->
  GoPath.plain (archived name) = true.
Proof.
  intros H. unfold GoPath.plain, archived.
  rewrite SplitFacts.Contains_app, H. reflexivity.
Qed.

Lemma plain_dashed (a b : string) :
  GoString.Contains GoPath.slash (a +:+ "-" +:+ b) = false ->
  GoPath.plain (a +:+ "-" +:+ b) = true.
Proof.
  intros H. unfold GoPath.plain. rewrite H. cbn [negb andb].
  assert (D : GoString.Contains dash (a +:+ "-" +:+ b) = true).
  { rewrite SplitFacts.Contains_app. apply orb_true_r. }
  destruct (String.eqb_spec (a +:+ "-" +:+ b) "") as [E|_];
    [rewrite E in D; discriminate|].
  destruct (String.eqb_spec (a +:+ "-" +:+ b) ".") as [E|_];
    [rewrite E in D; discriminate|].
  destruct (String.eqb_spec (a +:+ "-" +:+ b) "..") as [E|_];
    [rewrite E in D; discriminate|].
  reflexivity.
Qed.

Lemma archived_differs name : name <> archived name.
Proof.
  intros E. apply (f_equal String.length) in E.
  unfold archived in E. rewrite length_append in E. simpl in E. lia.
Qed.

Lemma mountPoint_not_nil server path : NfsClient.mountPoint server path <> "".
Proof. discriminate. Qed.

(** The path [Delete] renames differs from the path it renames it to. *)
Lemma old_differs_archive (mp name : string) :
  mp <> "" -> GoPath.plain name = true ->
  GoPath.Join [mp; name] <> GoPath.Join [mp; archived name].
Proof.
  intros Hmp Hn E. apply PathFacts.Join_last_inj in E; try assumption.
  - now apply archived_differs in E.
  - apply plain_archived. now apply PathFacts.plain_inv in Hn as [? _].
Qed.

(** *** [Provision] *)

Lemma Provision_success o h pv h2 :
  NfsClient.Provision o h = ((Some pv, None), h2) ->
  let server := index "" (Parameters o) "nfsServer" in
  let path := index "" (Parameters o) "nfsPath" in
  let name := NfsClient.pvName (Tenant o) (Stack o) (Service o) (PVName o) in
  let mp := NfsClient.mountPoint server path in
  (exists h1, NfsClient.ensureMount server path h = ((mp, None), h1)
              /\ MkdirAll (GoPath.Join [mp; name]) h1 = (None, h2))
  /\ NFS pv = Some (mkNFS server (GoPath.Join [path; name]) false)
  /\ labelledName pv = name.
Proof.
  intros H server path name mp. revert H.
  unfold NfsClient.Provision. io_unfold.
  destruct (pvcSelector (PVC o)); [discriminate|].
  destruct (negb _); [discriminate|]. fold server path name.
  pose proof (ensureMount_fst server path h) as Hmp. fold mp in Hmp.
  destruct (NfsClient.ensureMount server path h) as [[mp' [e|]] h1];
    [discriminate|].
  cbn in Hmp. subst mp'.
  destruct (MkdirAll _ h1) as [[e|] h2'] eqn:Emk; [discriminate|].
  intros [= <- <-]. split; [now exists h1|]. split; reflexivity.
Qed.

Lemma Provision000_success o h pv h2 :
  Part000.Provision o h = ((Some pv, None), h2) ->
  let server := index "" (Parameters o) "nfsServer" in
  let path := index "" (Parameters o) "nfsPath" in
  let name := Part000.pvName (pvcNamespace (PVC o)) (PVName o) in
  let mp := GoPath.Join [mountPath; server] in
  (exists h1, Part000.ensureMount server path mp h = (None, h1)
              /\ MkdirAll (GoPath.Join [mp; name]) h1 = (None, h2))
  /\ NFS pv = Some (mkNFS server (GoPath.Join [path; name]) false)
  /\ Name pv = PVName o
  /\ ClaimRef pv = None.
Proof.
  intros H server path name mp. revert H.
  unfold Part000.Provision. io_unfold.
  destruct (pvcSelector (PVC o)); [discriminate|].
  destruct (negb _); [discriminate|]. fold server path name mp.
  destruct (Part000.ensureMount server path mp h) as [[e|] h1];
    [discriminate|].
  destruct (MkdirAll _ h1) as [[e|] h2'] eqn:Emk; [discriminate|].
  intros [= <- <-]. split; [now exists h1|]. repeat split.
Qed.

(** When the spec's [Delete] returns nil, the directory has moved. *)
Lemma archive_done ens (M name : string) h2 h3 :
  M <> "" -> GoPath.plain name = true ->
  archive ens M name h2 = (Returns None, h3) ->
  dirExists h3 (GoPath.Join [M; name]) = false
  /\ dirExists h3 (GoPath.Join [M; archived name]) = true.
Proof.
  intros HM Hn. unfold archive. io_unfold.
  destruct (ens h2) as [[e|] h']; [discriminate|].
  destruct (Rename _ _ h') as [err h''] eqn:ER. intros [= -> ->].
  apply Rename_ok in ER; [exact ER|]. now apply old_differs_archive.
Qed.

End ProgramFacts.

(** * The claims *)

Import OS OSFacts ProgramFacts.

(** C5: a request that carries a claim selector is refused with the
    UnsupportedSelector error by both programs, whatever its parameters
    are (the check comes first), and the host is left exactly as it was:
    no call is made, so nothing is mounted and no directory is created. *)
Theorem provision_rejects_selector (o : VolumeOptions) (h : Host) :
  pvcSelector (PVC o) <> None ->
  NfsClient.Provision o h = ((None, Some UnsupportedSelector), h)
  /\ Part000.Provision o h = ((None, Some UnsupportedSelector), h).
Proof.
  intros Hsel. unfold NfsClient.Provision, Part000.Provision.
  destruct (pvcSelector (PVC o)); [now split|congruence].
Qed.

Lemma provision_rejects_selector_witness :
  pvcSelector (PVC requestWithSelector) <> None
  /\ NfsClient.Provision requestWithSelector host0
     = ((None, Some UnsupportedSelector), host0)
  /\ Part000.Provision requestWithSelector host0
     = ((None, Some UnsupportedSelector), host0).
Proof.
  split; [discriminate|].
  apply (provision_rejects_selector requestWithSelector host0). discriminate.
Defined.

(** C6: a request whose parameters lack the server key or the path key
    leaves the host exactly as it was (no mount, no directory); having
    passed the selector check, which comes first, it is refused with the
    MissingParameter error.  Both programs. *)
Theorem provision_requires_parameters (o : VolumeOptions) (h : Host) :
  Parameters o !! "nfsServer" = None \/ Parameters o !! "nfsPath" = None ->
  (snd (NfsClient.Provision o h) = h /\ snd (Part000.Provision o h) = h)
  /\ (pvcSelector (PVC o) = None ->
      NfsClient.Provision o h = ((None, Some MissingParameter), h)
      /\ Part000.Provision o h = ((None, Some MissingParameter), h)).
Proof.
  intros Hlack.
  assert (E : inMap "nfsPath" (Parameters o) && inMap "nfsServer" (Parameters o) = false).
  { unfold inMap. destruct Hlack as [-> | ->]; [apply andb_false_r|reflexivity]. }
  unfold NfsClient.Provision, Part000.Provision. rewrite E.
  destruct (pvcSelector (PVC o)); repeat split; intros; congruence.
Qed.

Lemma provision_requires_parameters_witness :
  (Parameters requestWithoutServer !! "nfsServer" = None
   \/ Parameters requestWithoutServer !! "nfsPath" = None)
  /\ NfsClient.Provision requestWithoutServer host0
     = ((None, Some MissingParameter), host0)
  /\ Part000.Provision requestWithoutServer host0
     = ((None, Some MissingParameter), host0).
Proof.
  assert (H : Parameters requestWithoutServer !! "nfsServer" = None
              \/ Parameters requestWithoutServer !! "nfsPath" = None)
    by (left; reflexivity).
  split; [exact H|].
  exact (proj2 (provision_requires_parameters requestWithoutServer host0 H) eq_refl).
Defined.

(** C7: the descriptor of a successful [Provision] has the request's
    [nfsPath] joined with the per-volume directory name as its export
    path (on the request's server), the request's storage quantity as
    its capacity, the request's access modes and reclaim policy, and the
    requested volume name, not the directory name, as its name.  Both
    programs, each with its own directory name. *)
Theorem provision_descriptor (o : VolumeOptions) (h h' : Host)
    (pv : PersistentVolume) :
  (NfsClient.Provision o h = ((Some pv, None), h') ->
   describes o (NfsClient.pvName (Tenant o) (Stack o) (Service o) (PVName o)) pv)
  /\ (Part000.Provision o h = ((Some pv, None), h') ->
      describes o (Part000.pvName (pvcNamespace (PVC o)) (PVName o)) pv).
Proof.
  unfold NfsClient.Provision, Part000.Provision. io_unfold.
  destruct (pvcSelector (PVC o)); [split; discriminate|].
  destruct (negb _); [split; discriminate|].
  split.
  - destruct (NfsClient.ensureMount _ _ h) as [[mp [e|]] h1]; [discriminate|].
    destruct (MkdirAll _ h1) as [[e|] h2]; [discriminate|].
    intros [= <- <-]. repeat split.
  - destruct (Part000.ensureMount _ _ _ h) as [[e|] h1]; [discriminate|].
    destruct (MkdirAll _ h1) as [[e|] h2]; [discriminate|].
    intros [= <- <-]. repeat split.
Qed.

Lemma provision_descriptor_witness :
  exists pv h',
    NfsClient.Provision request0 host0 = ((Some pv, None), h')
    /\ describes request0 "acme-web-svc-pv-1" pv
    /\ Name pv = "pv-1"
    /\ option_map Path (NFS pv) = Some "/export/acme-web-svc-pv-1".
Proof.
  destruct (NfsClient.Provision request0 host0) as [[[pv|] [e|]] h'] eqn:E;
    try (vm_compute in E; discriminate).
  exists pv, h'. split; [reflexivity|].
  pose proof (proj1 (provision_descriptor request0 host0 h' pv) E) as D.
  split; [exact D|]. destruct D as (HN & _ & _ & _ & Hname).
  split; [exact Hname|]. rewrite HN. reflexivity.
Defined.

(** C4: [ensureMount] called twice in a row for the same export, the
    first call succeeding and its mount point then showing in the mount
    table, runs the [mount] command at most once over both calls; the
    second call succeeds too and, in [provisioner.go] where the mount
    point is returned, both calls return the same mount point.  Both
    programs. *)
Theorem ensureMount_twice (server path : string) (h : Host) :
  (forall mp1 h1 r2 h2,
      NfsClient.ensureMount server path h = ((mp1, None), h1) ->
      fst (isMounted mp1 h1) = true ->
      NfsClient.ensureMount server path h1 = (r2, h2) ->
      mountCalls h2 <= mountCalls h + 1 /\ r2 = (mp1, None))
  /\ (forall mp h1 e2 h2,
      Part000.ensureMount server path mp h = (None, h1) ->
      fst (isMounted mp h1) = true ->
      Part000.ensureMount server path mp h1 = (e2, h2) ->
      mountCalls h2 <= mountCalls h + 1 /\ e2 = None).
Proof.
  assert (P : forall mp h1 e2 h2,
      Part000.ensureMount server path mp h = (None, h1) ->
      fst (isMounted mp h1) = true ->
      Part000.ensureMount server path mp h1 = (e2, h2) ->
      mountCalls h2 <= mountCalls h + 1 /\ e2 = None).
  { intros mp h1 e2 h2 H1 Hvis H2.
    rewrite ensureMount_mounted in H2 by assumption.
    injection H2 as <- <-.
    destruct (ensureMount_frame _ _ _ _ _ _ H1) as (_ & Hcount & _).
    rewrite mountCalls_logged. cbn. split; [lia|reflexivity]. }
  split; [|exact P].
  intros mp1 h1 r2 h2. rewrite !ensureMount_shared.
  destruct (Part000.ensureMount server path _ h) as [e1 h1'] eqn:E1.
  intros [= <- -> ->] Hvis.
  destruct (Part000.ensureMount server path _ h1) as [e2 h2'] eqn:E2.
  intros [= <- <-].
  destruct (P _ _ _ _ E1 Hvis E2) as [Hc ->]. now split.
Qed.

Lemma ensureMount_twice_witness :
  exists h1 h2,
    NfsClient.ensureMount "nfs1" "/export" host0
    = (("/persistentvolumes/nfs1/%2Fexport", None), h1)
    /\ fst (isMounted "/persistentvolumes/nfs1/%2Fexport" h1) = true
    /\ NfsClient.ensureMount "nfs1" "/export" h1
       = (("/persistentvolumes/nfs1/%2Fexport", None), h2)
    /\ mountCalls h2 <= mountCalls host0 + 1.
Proof.
  eexists. eexists.
  assert (E1 : NfsClient.ensureMount "nfs1" "/export" host0
               = (("/persistentvolumes/nfs1/%2Fexport", None),
                  snd (NfsClient.ensureMount "nfs1" "/export" host0)))
    by (vm_compute; reflexivity).
  assert (V : fst (isMounted "/persistentvolumes/nfs1/%2Fexport"
                     (snd (NfsClient.ensureMount "nfs1" "/export" host0))) = true)
    by (vm_compute; reflexivity).
  split; [exact E1|]. split; [exact V|].
  destruct (proj1 (ensureMount_twice "nfs1" "/export" host0) _ _ _ _
              E1 V eq_refl) as [Hc Hr].
  split; [|exact Hc].
  rewrite <- Hr. apply surjective_pairing.
Defined.

(** C10: [Delete] dereferences the volume's NFS source without a guard:
    on a volume without one both programs panic at once, on every host
    and having touched nothing, instead of returning an error.
    [part_000] also dereferences [ClaimRef] without a guard, after the
    mount step: on a volume without a [ClaimRef] it panics whenever that
    step succeeds, as it does on a host where the mount point is in the
    mount table.  With these fields present [Delete] returns on every
    host.  So [Delete] is total exactly for volumes that have them. *)
Theorem delete_nil_dereference (pv : PersistentVolume) :
  (NFS pv = None ->
   forall h,
     NfsClient.Delete pv h = (Panics nilDereference, h)
     /\ Part000.Delete pv h = (Panics nilDereference, h))
  /\ (forall nfs,
        NFS pv = Some nfs -> ClaimRef pv = None ->
        let mp := GoPath.Join [mountPath; Server nfs] in
        (forall h h1,
            Part000.ensureMount (Server nfs) (GoPath.Dir (Path nfs)) mp h
            = (None, h1) ->
            Part000.Delete pv h = (Panics nilDereference, h1))
        /\ fst (Part000.Delete pv (mkHost [mkMount "" mp] [] noRefusal []))
           = Panics nilDereference)
  /\ (NFS pv <> None ->
      forall h, exists r h', NfsClient.Delete pv h = (Returns r, h'))
  /\ (NFS pv <> None -> ClaimRef pv <> None ->
      forall h, exists r h', Part000.Delete pv h = (Returns r, h')).
Proof.
  split; [|split; [|split]].
  - intros E h. unfold NfsClient.Delete, Part000.Delete. rewrite E. now split.
  - intros nfs Hnfs Href mp.
    assert (P : forall h h1,
               Part000.ensureMount (Server nfs) (GoPath.Dir (Path nfs)) mp h
               = (None, h1) ->
               Part000.Delete pv h = (Panics nilDereference, h1)).
    { intros h h1 E. unfold Part000.Delete. rewrite Hnfs, Href. io_unfold.
      fold mp. now rewrite E. }
    split; [exact P|].
    erewrite P; [reflexivity|].
    apply ensureMount_mounted.
    unfold isMounted, ReadMounts. io_unfold. cbn.
    now rewrite String.eqb_refl.
  - unfold NfsClient.Delete. io_unfold.
    destruct (NFS pv) as [nfs|]; [intros _ h|congruence].
    destruct (NfsClient.ensureMount _ _ h) as [[mp [e|]] h1]; [now eexists _, _|].
    destruct (Rename _ _ h1) as [err h2]. now eexists _, _.
  - unfold Part000.Delete. io_unfold.
    destruct (NFS pv) as [nfs|]; [intros _|congruence].
    destruct (ClaimRef pv) as [ref|]; [intros _ h|congruence].
    destruct (Part000.ensureMount _ _ _ h) as [[e|] h1]; [now eexists _, _|].
    destruct (Rename _ _ h1) as [err h2]. now eexists _, _.
Qed.

Lemma delete_nil_dereference_witness :
  NFS foreignVolume = None
  /\ NfsClient.Delete foreignVolume host0 = (Panics nilDereference, host0)
  /\ Part000.Delete foreignVolume host0 = (Panics nilDereference, host0).
Proof.
  split; [reflexivity|].
  exact (proj1 (delete_nil_dereference foreignVolume) eq_refl host0).
Defined.

(** C2, as stated, fails: two different tuples give the same directory
    name when a dash moves from one field to the next.  Both programs. *)
Lemma pvName_collision :
  ~ (forall t s v n t' s' v' n' : string,
        (t, s, v, n) <> (t', s', v', n') ->
        NfsClient.pvName t s v n <> NfsClient.pvName t' s' v' n')
  /\ ~ (forall ns n ns' n' : string,
        (ns, n) <> (ns', n') -> Part000.pvName ns n <> Part000.pvName ns' n').
Proof.
  split.
  - intros H. apply (H "a-b" "c" "d" "e" "a" "b-c" "d" "e"); [discriminate|reflexivity].
  - intros H. apply (H "a-b" "c" "a" "b-c"); [discriminate|reflexivity].
Qed.

Lemma dash_split (a a' r r' : string) :
  GoString.Contains dash a = false -> GoString.Contains dash a' = false ->
  a +:+ "-" +:+ r = a' +:+ "-" +:+ r' -> a = a' /\ r = r'.
Proof.
  revert a'. induction a as [|c a IH]; intros [|c' a']; simpl;
    rewrite ?append_nil_l, ?append_cons.
  - intros _ _ H. apply (append_inv_head "-") in H. now split.
  - intros _ [Hc _]%orb_false_iff [= <- _]. discriminate.
  - intros [Hc _]%orb_false_iff _ [= -> _]. discriminate.
  - intros [_ Ha]%orb_false_iff [_ Ha']%orb_false_iff [= -> H].
    destruct (IH a' Ha Ha' H) as [-> ->]. now split.
Qed.

(** C2, amended: tuples whose grouping keys hold no dash get different
    directory names unless they are the same tuple; the base name may
    hold dashes.  Both programs. *)
Theorem pvName_injective :
  (forall t s v n t' s' v' n' : string,
      GoString.Contains dash t = false -> GoString.Contains dash s = false ->
      GoString.Contains dash v = false -> GoString.Contains dash t' = false ->
      GoString.Contains dash s' = false -> GoString.Contains dash v' = false ->
      (t, s, v, n) <> (t', s', v', n') ->
      NfsClient.pvName t s v n <> NfsClient.pvName t' s' v' n')
  /\ (forall ns n ns' n' : string,
      GoString.Contains dash ns = false -> GoString.Contains dash ns' = false ->
      (ns, n) <> (ns', n') -> Part000.pvName ns n <> Part000.pvName ns' n').
Proof.
  split.
  - intros t s v n t' s' v' n' Ht Hs Hv Ht' Hs' Hv' Hne E. apply Hne.
    unfold NfsClient.pvName in E.
    apply dash_split in E as [-> E]; [|assumption..].
    apply dash_split in E as [-> E]; [|assumption..].
    apply dash_split in E as [-> ->]; [|assumption..].
    reflexivity.
  - intros ns n ns' n' Hns Hns' Hne E. apply Hne.
    unfold Part000.pvName in E.
    apply dash_split in E as [-> ->]; [|assumption..]. reflexivity.
Qed.

Lemma pvName_injective_witness :
  NfsClient.pvName "acme" "web" "svc" "pv-1" <> NfsClient.pvName "acme" "web" "svc" "pv-2"
  /\ Part000.pvName "acme" "pv-1" <> Part000.pvName "acme" "pv-2".
Proof.
  split.
  - apply (proj1 pvName_injective); try reflexivity. discriminate.
  - apply (proj2 pvName_injective); try reflexivity. discriminate.
Defined.

(** [provisioner.go] derives the mount point from the server and the
    escaped path: different paths on one server get different mount
    points. *)
Lemma mountPoint_injective (server path path' : string) :
  NfsClient.mountPoint server path = NfsClient.mountPoint server path' ->
  path = path'.
Proof.
  unfold NfsClient.mountPoint. intros H.
  do 4 apply append_inv_head in H. now apply URLFacts.QueryEscape_inj.
Qed.

(** C3 in [part_000]: the mount point is [/persistentvolumes/server],
    whatever the path.  Provisioning from [nfs1:/export/a] and then from
    [nfs1:/export/b] uses one mount point for both: the second request
    finds it mounted, so [/export/b] is never mounted and its volume
    directory is made inside the mount of [/export/a], while its
    descriptor points into [/export/b]. *)
Theorem part000_mount_point_ignores_path :
  let hA := snd (Part000.Provision requestA host0) in
  let (rB, hB) := Part000.Provision requestB hA in
  trace hA = [ReadMountsCall "/proc/mounts";
              MkdirAllCall "/persistentvolumes/nfs1";
              MountCall "nfs1:/export/a" "/persistentvolumes/nfs1";
              MkdirAllCall "/persistentvolumes/nfs1/acme-pv-a"]
  /\ trace hB = trace hA ++ [ReadMountsCall "/proc/mounts";
                             MkdirAllCall "/persistentvolumes/nfs1/acme-pv-b"]
  /\ mounts hB = [mkMount "nfs1:/export/a" "/persistentvolumes/nfs1"]
  /\ option_map Path (from_option NFS None (fst rB)) = Some "/export/b/acme-pv-b".
Proof. vm_compute. repeat split. Qed.

(** C8: when the directory [Delete] is about to rename is not there
    (as after an earlier [Delete] that archived it), [os.Rename] fails
    with ENOENT and [Delete] hands that error back as it is, having
    changed nothing.  So [Delete] is not idempotent: called again right
    after a call that returned nil, with the mount still in the mount
    table, it returns the rename error.  Both programs. *)
Theorem delete_missing_directory (volume : PersistentVolume)
    (nfs : NFSVolumeSource) (h : Host) :
  NFS volume = Some nfs ->
  let server := Server nfs in
  let path := GoPath.Dir (Path nfs) in
  (* provisioner.go *)
  (let name := labelledName volume in
   (forall mp h1,
       NfsClient.ensureMount server path h = ((mp, None), h1) ->
       dirExists h1 (GoPath.Join [mp; name]) = false ->
       NfsClient.Delete volume h
       = (Returns (Some (renameENOENT (GoPath.Join [mp; name])
                                      (GoPath.Join [mp; archived name]))),
          logged (RenameCall (GoPath.Join [mp; name])
                             (GoPath.Join [mp; archived name])) h1))
   /\ (forall before,
       NfsClient.Delete volume before = (Returns None, h) ->
       GoString.Contains GoPath.slash name = false ->
       fst (isMounted (NfsClient.mountPoint server path) h) = true ->
       exists e h2, NfsClient.Delete volume h = (Returns (Some e), h2)
                    /\ dirs h2 = dirs h))
  (* part_000 *)
  /\ (forall claimRef, ClaimRef volume = Some claimRef ->
      let name := referredName claimRef volume in
      let mp := GoPath.Join [mountPath; server] in
      (forall h1,
          Part000.ensureMount server path mp h = (None, h1) ->
          dirExists h1 (GoPath.Join [mountPath; server; name]) = false ->
          Part000.Delete volume h
          = (Returns (Some (renameENOENT
                              (GoPath.Join [mountPath; server; name])
                              (GoPath.Join [mountPath; server; archived name]))),
             logged (RenameCall (GoPath.Join [mountPath; server; name])
                       (GoPath.Join [mountPath; server; archived name])) h1))
      /\ (forall before,
          Part000.Delete volume before = (Returns None, h) ->
          GoString.Contains GoPath.slash name = false ->
          fst (isMounted mp h) = true ->
          exists e h2, Part000.Delete volume h = (Returns (Some e), h2)
                       /\ dirs h2 = dirs h)).
Proof.
  intros Hnfs server path. split.
  - intros name.
    assert (P1 : forall mp h0 h1,
               NfsClient.ensureMount server path h0 = ((mp, None), h1) ->
               dirExists h1 (GoPath.Join [mp; name]) = false ->
               NfsClient.Delete volume h0
               = (Returns (Some (renameENOENT (GoPath.Join [mp; name])
                                              (GoPath.Join [mp; archived name]))),
                  logged (RenameCall (GoPath.Join [mp; name])
                                     (GoPath.Join [mp; archived name])) h1)).
    { intros mp h0 h1 Hmount Hgone.
      rewrite (Delete_unfold _ _ _ Hnfs). fold server path name. rewrite Hmount.
      now rewrite Rename_missing. }
    split; [intros mp h1; apply P1|].
    intros before Hfirst Hslash Hvis.
    rewrite (Delete_unfold _ _ _ Hnfs) in Hfirst. fold server path name in Hfirst.
    pose proof (ensureMount_fst server path before) as Hmp.
    destruct (NfsClient.ensureMount server path before) as [[mp [e|]] h1];
      [discriminate|].
    cbn in Hmp. subst mp.
    destruct (Rename _ _ h1) as [err h2] eqn:ER. injection Hfirst as -> ->.
    apply Rename_ok in ER as [Hgone _];
      [|apply old_differs_archive;
        [apply mountPoint_not_nil | now apply plain_dashed]].
    eexists _, _. split.
    + apply P1.
      * rewrite ensureMount_shared, ensureMount_mounted by assumption. reflexivity.
      * exact Hgone.
    + reflexivity.
  - intros claimRef Href name mp.
    assert (P1 : forall h0 h1,
               Part000.ensureMount server path mp h0 = (None, h1) ->
               dirExists h1 (GoPath.Join [mountPath; server; name]) = false ->
               Part000.Delete volume h0
               = (Returns (Some (renameENOENT
                                   (GoPath.Join [mountPath; server; name])
                                   (GoPath.Join [mountPath; server; archived name]))),
                  logged (RenameCall (GoPath.Join [mountPath; server; name])
                            (GoPath.Join [mountPath; server; archived name])) h1)).
    { intros h0 h1 Hmount Hgone.
      rewrite (Delete000_unfold _ _ _ _ Hnfs Href).
      fold server path mp name. rewrite Hmount.
      now rewrite Rename_missing. }
    split; [intros h1; apply P1|].
    intros before Hfirst Hslash Hvis.
    rewrite (Delete000_unfold _ _ _ _ Hnfs Href) in Hfirst.
    fold server path mp name in Hfirst.
    destruct (Part000.ensureMount server path mp before) as [[e|] h1];
      [discriminate|].
    destruct (Rename _ _ h1) as [err h2] eqn:ER. injection Hfirst as -> ->.
    apply Rename_ok in ER as [Hgone _].
    + eexists _, _. split.
      * apply P1; [now apply ensureMount_mounted | exact Hgone].
      * reflexivity.
    + rewrite <- !(PathFacts.Join_Join mountPath server) by discriminate.
      apply old_differs_archive;
        [rewrite PathFacts.Join_two by discriminate; apply PathFacts.Clean_not_nil
        | now apply plain_dashed].
Qed.

Lemma delete_missing_directory_witness :
  NFS volume0 = Some nfs0
  /\ NfsClient.Delete volume0 hostProvisioned0 = (Returns None, hostArchived0)
  /\ exists e h2,
      NfsClient.Delete volume0 hostArchived0 = (Returns (Some e), h2)
      /\ dirs h2 = dirs hostArchived0.
Proof.
  assert (Hnfs : NFS volume0 = Some nfs0) by (vm_compute; reflexivity).
  assert (Hfirst : NfsClient.Delete volume0 hostProvisioned0
                   = (Returns None, hostArchived0)) by (vm_compute; reflexivity).
  split; [exact Hnfs|]. split; [exact Hfirst|].
  refine (proj2 (proj1 (delete_missing_directory volume0 nfs0 hostArchived0 Hnfs))
            hostProvisioned0 Hfirst _ _); vm_compute; reflexivity.
Defined.




(** C1, as stated, fails.  In [provisioner.go] the mount point is
    derived from the path as given to [Provision], but [Delete] derives
    it from [path.Dir] of the export path, which is cleaned: with
    [nfsPath] [/export/], and with a slash in a grouping key, [Delete]
    mounts and renames under another mount point than the one
    [Provision] made the directory in.  In [part_000] the descriptor
    [Provision] returns has no [ClaimRef]: handed back as it is, it makes
    [Delete] panic. *)
Lemma delete_counterexample :
  (exists pv h1,
      NfsClient.Provision requestTrailingSlash host0 = ((Some pv, None), h1)
      /\ trace h1
         = [ReadMountsCall "/proc/mounts";
            MkdirAllCall "/persistentvolumes/nfs1/%2Fexport%2F";
            MountCall "nfs1:/export/" "/persistentvolumes/nfs1/%2Fexport%2F";
            MkdirAllCall "/persistentvolumes/nfs1/%2Fexport%2F/acme-web-svc-pv-1"]
      /\ trace (snd (NfsClient.Delete pv h1))
         = trace h1
           ++ [ReadMountsCall "/proc/mounts";
               MkdirAllCall "/persistentvolumes/nfs1/%2Fexport";
               MountCall "nfs1:/export" "/persistentvolumes/nfs1/%2Fexport";
               RenameCall "/persistentvolumes/nfs1/%2Fexport/acme-web-svc-pv-1"
                 "/persistentvolumes/nfs1/%2Fexport/archived-acme-web-svc-pv-1"])
  /\ (exists pv h1,
      NfsClient.Provision requestSlashTenant host0 = ((Some pv, None), h1)
      /\ trace h1
         = [ReadMountsCall "/proc/mounts";
            MkdirAllCall "/persistentvolumes/nfs1/%2Fexport";
            MountCall "nfs1:/export" "/persistentvolumes/nfs1/%2Fexport";
            MkdirAllCall "/persistentvolumes/nfs1/%2Fexport/ac/me-web-svc-pv-1"]
      /\ trace (snd (NfsClient.Delete pv h1))
         = trace h1
           ++ [ReadMountsCall "/proc/mounts";
               MkdirAllCall "/persistentvolumes/nfs1/%2Fexport%2Fac";
               MountCall "nfs1:/export/ac" "/persistentvolumes/nfs1/%2Fexport%2Fac";
               RenameCall "/persistentvolumes/nfs1/%2Fexport%2Fac/ac/me-web-svc-pv-1"
                 "/persistentvolumes/nfs1/%2Fexport%2Fac/archived-ac/me-web-svc-pv-1"])
  /\ (exists pv h1,
      Part000.Provision request0 host0 = ((Some pv, None), h1)
      /\ fst (Part000.Delete pv h1) = Panics nilDereference).
Proof.
  split; [|split].
  - exists (from_option id foreignVolume
              (fst (fst (NfsClient.Provision requestTrailingSlash host0)))),
           (snd (NfsClient.Provision requestTrailingSlash host0)).
    repeat split; vm_compute; reflexivity.
  - exists (from_option id foreignVolume
              (fst (fst (NfsClient.Provision requestSlashTenant host0)))),
           (snd (NfsClient.Provision requestSlashTenant host0)).
    repeat split; vm_compute; reflexivity.
  - exists (from_option id foreignVolume
              (fst (fst (Part000.Provision request0 host0)))),
           (snd (Part000.Provision request0 host0)).
    repeat split; vm_compute; reflexivity.
Qed.

(** C1, amended.  [provisioner.go]: for the descriptor of a successful
    [Provision] whose [nfsPath] is a clean path and whose directory name
    holds no slash, [Delete] on any later host is the spec's archive
    step for the same export, the same mount point M and the same
    directory name: it makes sure the export is mounted and renames
    M/name, the directory [Provision] made, to M/archived-name; when it
    returns nil, M/name is gone and M/archived-name is there.
    [part_000]: the same, without the condition on [nfsPath], for the
    descriptor once it carries a [ClaimRef] naming the claim's
    namespace. *)
Theorem delete_archives_provisioned (o : VolumeOptions) (h h1 : Host)
    (pv : PersistentVolume) :
  let server := index "" (Parameters o) "nfsServer" in
  let path := index "" (Parameters o) "nfsPath" in
  (let name := NfsClient.pvName (Tenant o) (Stack o) (Service o) (PVName o) in
   let M := NfsClient.mountPoint server path in
   NfsClient.Provision o h = ((Some pv, None), h1) ->
   GoPath.Clean path = path ->
   GoString.Contains GoPath.slash name = false ->
   dirExists h1 (GoPath.Join [M; name]) = true
   /\ (forall h2,
        NfsClient.Delete pv h2 = archive (ensureMounted server path) M name h2)
   /\ (forall h2 h3,
        NfsClient.Delete pv h2 = (Returns None, h3) ->
        dirExists h3 (GoPath.Join [M; name]) = false
        /\ dirExists h3 (GoPath.Join [M; archived name]) = true))
  /\ (let name := Part000.pvName (pvcNamespace (PVC o)) (PVName o) in
      let M := GoPath.Join [mountPath; server] in
      Part000.Provision o h = ((Some pv, None), h1) ->
      GoString.Contains GoPath.slash name = false ->
      dirExists h1 (GoPath.Join [M; name]) = true
      /\ forall v claimRef,
          Name v = Name pv -> NFS v = NFS pv -> ClaimRef v = Some claimRef ->
          refNamespace claimRef = pvcNamespace (PVC o) ->
          (forall h2,
              Part000.Delete v h2
              = archive (Part000.ensureMount server
                           (GoPath.Dir (GoPath.Join [path; name])) M) M name h2)
          /\ (forall h2 h3,
              Part000.Delete v h2 = (Returns None, h3) ->
              dirExists h3 (GoPath.Join [M; name]) = false
              /\ dirExists h3 (GoPath.Join [M; archived name]) = true)).
Proof.
  intros server path. split.
  - intros name M Hok Hclean Hslash.
    destruct (Provision_success _ _ _ _ Hok) as ((h0 & _ & Emk) & Hnfs & Hname).
    fold server path name M in Emk, Hnfs, Hname.
    assert (Hplain : GoPath.plain name = true) by now apply plain_dashed.
    assert (D : forall h2,
               NfsClient.Delete pv h2
               = archive (ensureMounted server path) M name h2).
    { intros h2. rewrite (Delete_unfold _ _ _ Hnfs). cbn [Server Path].
      rewrite PathFacts.Dir_Join, Hname by assumption.
      unfold archive, ensureMounted. io_unfold.
      pose proof (ensureMount_fst server path h2) as Hmp. fold M in Hmp.
      destruct (NfsClient.ensureMount server path h2) as [[mp [e|]] h'];
        [reflexivity|].
      cbn in Hmp. subst mp.
      destruct (Rename _ _ h'); reflexivity. }
    split; [now apply MkdirAll_ok in Emk|]. split; [exact D|].
    intros h2 h3 Hdone. rewrite D in Hdone.
    eapply archive_done; [apply mountPoint_not_nil|exact Hplain|exact Hdone].
  - intros name M Hok Hslash.
    destruct (Provision000_success _ _ _ _ Hok)
      as ((h0 & _ & Emk) & Hnfs & Hname & _).
    fold server path name M in Emk, Hnfs.
    assert (Hplain : GoPath.plain name = true) by now apply plain_dashed.
    split; [now apply MkdirAll_ok in Emk|].
    intros v claimRef HvName HvNFS HvRef Hns.
    assert (D : forall h2,
               Part000.Delete v h2
               = archive (Part000.ensureMount server
                            (GoPath.Dir (GoPath.Join [path; name])) M) M name h2).
    { intros h2. rewrite <- HvNFS in Hnfs.
      rewrite (Delete000_unfold _ _ _ _ Hnfs HvRef). cbn [Server Path].
      unfold referredName. rewrite Hns, HvName, Hname. fold name. fold M.
      rewrite <- !(PathFacts.Join_Join mountPath server) by discriminate.
      fold M. unfold archive. io_unfold.
      destruct (Part000.ensureMount _ _ M h2) as [[e|] h']; [reflexivity|].
      destruct (Rename _ _ h'); reflexivity. }
    split; [exact D|].
    intros h2 h3 Hdone. rewrite D in Hdone.
    eapply archive_done; [|exact Hplain|exact Hdone].
    unfold M. rewrite PathFacts.Join_two by discriminate.
    apply PathFacts.Clean_not_nil.
Qed.

Lemma delete_archives_provisioned_witness :
  NfsClient.Provision request0 host0 = ((Some volume0, None), hostProvisioned0)
  /\ GoPath.Clean "/export" = "/export"
  /\ dirExists hostProvisioned0
       "/persistentvolumes/nfs1/%2Fexport/acme-web-svc-pv-1" = true
  /\ NfsClient.Delete volume0 hostProvisioned0 = (Returns None, hostArchived0)
  /\ dirExists hostArchived0
       "/persistentvolumes/nfs1/%2Fexport/acme-web-svc-pv-1" = false
  /\ dirExists hostArchived0
       "/persistentvolumes/nfs1/%2Fexport/archived-acme-web-svc-pv-1" = true.
Proof.
  assert (Hok : NfsClient.Provision request0 host0
                = ((Some volume0, None), hostProvisioned0))
    by (vm_compute; reflexivity).
  assert (Hdel : NfsClient.Delete volume0 hostProvisioned0
                 = (Returns None, hostArchived0))
    by (vm_compute; reflexivity).
  destruct (proj1 (delete_archives_provisioned request0 host0 hostProvisioned0
                     volume0) Hok eq_refl eq_refl) as (Hmade & _ & Hgone).
  destruct (Hgone _ _ Hdel) as [Hold Hnew].
  repeat split; assumption || reflexivity.
Defined.


(** * Further properties of the provisioners *)

Module MoreFacts.
Import GoString GoPath SplitFacts PathFacts.

(** Joining the pieces of a string gives the string back. *)
Lemma concat_Split c (s : string) : String.concat (String c "") (Split c s) = s.
Proof.
  induction s as [|d s IH]; [reflexivity|]. simpl.
  pose proof (Split_not_nil c s) as Hne.
  destruct (Ascii.eqb_spec d c) as [->|_].
  - destruct (Split c s) as [|w ws]; [congruence|].
    rewrite concat_cons2, IH. reflexivity.
  - destruct (Split c s) as [|w ws]; [congruence|].
    destruct ws as [|w' ws].
    + simpl in IH |- *. now rewrite IH.
    + rewrite concat_cons2 in *. rewrite append_cons. now rewrite IH.
Qed.

Lemma Split_inj c (s t : string) : Split c s = Split c t -> s = t.
Proof.
  intros H. rewrite <- (concat_Split c s), <- (concat_Split c t). now rewrite H.
Qed.

(** A string is cut at its last slash in one way only. *)
Lemma last_slash_split (s s' x x' : string) :
  Contains slash x = false -> Contains slash x' = false ->
  s +:+ "/" +:+ x = s' +:+ "/" +:+ x' -> s = s' /\ x = x'.
Proof.
  intros Hx Hx' E. apply (f_equal (Split slash)) in E.
  change ("/" +:+ x) with (String slash x) in E.
  change ("/" +:+ x') with (String slash x') in E.
  rewrite !Split_app, (Split_free _ _ Hx), (Split_free _ _ Hx') in E.
  apply app_inj_tail in E as [E ->]. split; [|reflexivity].
  now apply Split_inj in E.
Qed.

Lemma QueryEscape_byte_no_slash (c : ascii) (s : string) :
  Contains slash (URL.QueryEscape (String c s))
  = Contains slash (URL.QueryEscape s).
Proof. destruct c as [[] [] [] [] [] [] [] []]; reflexivity. Qed.

(** An escaped path holds no slash. *)
Lemma QueryEscape_no_slash (s : string) :
  Contains slash (URL.QueryEscape s) = false.
Proof.
  induction s as [|c s IH]; [reflexivity|].
  now rewrite QueryEscape_byte_no_slash.
Qed.

Lemma Clean_idem (p : string) : Clean (Clean p) = Clean p.
Proof.
  unfold Clean at 1. rewrite rooted_Clean.
  unfold cleanElems. rewrite Clean_elems. reflexivity.
Qed.

(** [path.Dir] of a path joined with a proper element is the path,
    cleaned. *)
Lemma Dir_Join_Clean (p n : string) :
  plain n = true -> Dir (Join [p; n]) = Clean p.
Proof.
  intros Hn. destruct (String.eqb_spec p "") as [->|Hp].
  - destruct (plain_inv _ Hn) as (Hfree & Hne & Hd & Hdd).
    assert (E : Join [""; n] = Clean n).
    { simpl. apply String.eqb_neq in Hne. now rewrite Hne. }
    rewrite E. unfold Clean at 1.
    rewrite (Split_free _ _ Hfree). unfold cleanElems. cbn [fold_left].
    rewrite cleanStep_plain by assumption. cbn [rev app].
    assert (rooted n = false) as ->.
    { destruct n as [|c n]; [reflexivity|]. simpl in Hfree |- *.
      now apply orb_false_iff in Hfree as [-> _]. }
    change (render false [n]) with n.
    apply String.eqb_neq in Hne. rewrite Hne.
    unfold Dir, splitDir. rewrite (Split_free _ _ Hfree). reflexivity.
  - rewrite Join_two, <- Clean_slash_Clean by assumption.
    rewrite <- Join_two by apply Clean_not_nil.
    apply Dir_Join; [apply Clean_idem|assumption].
Qed.

End MoreFacts.

Import MoreFacts.

(** [mountPoint] of [provisioner.go] tells export targets apart:
    different (server, path) pairs get different mount points, also
    across servers. *)
Theorem mountPoint_identifies_export (server path server' path' : string) :
  (server, path) <> (server', path') ->
  NfsClient.mountPoint server path <> NfsClient.mountPoint server' path'.
Proof.
  intros Hne E. apply Hne. unfold NfsClient.mountPoint in E.
  do 2 apply append_inv_head in E.
  apply last_slash_split in E as [-> E]; try apply QueryEscape_no_slash.
  now apply URLFacts.QueryEscape_inj in E as ->.
Qed.

Lemma mountPoint_identifies_export_witness :
  NfsClient.mountPoint "nfs1" "/export/a" <> NfsClient.mountPoint "nfs1/export" "/a".
Proof.
  apply (mountPoint_identifies_export "nfs1" "/export/a" "nfs1/export" "/a").
  discriminate.
Defined.


(** The name a volume's directory is archived under is itself a
    directory name of [provisioner.go], that of tenant [archived]; a
    tenant that holds no dash and is not [archived] never has a
    directory by the name of an archived one. *)
Theorem archived_name_is_live_name (t s v n : string) :
  archived (NfsClient.pvName t s v n)
  = NfsClient.pvName "archived" t s (v +:+ "-" +:+ n)
  /\ forall t' s' v' n',
      GoString.Contains dash t' = false -> t' <> "archived" ->
      NfsClient.pvName t' s' v' n' <> archived (NfsClient.pvName t s v n).
Proof.
  assert (E : archived (NfsClient.pvName t s v n)
              = NfsClient.pvName "archived" t s (v +:+ "-" +:+ n))
    by reflexivity.
  split; [exact E|].
  intros t' s' v' n' Ht' Hne H. rewrite E in H. unfold NfsClient.pvName in H.
  now apply dash_split in H as [-> _].
Qed.

Lemma archived_name_is_live_name_witness :
  archived (NfsClient.pvName "acme" "web" "svc" "pv-1")
  = NfsClient.pvName "archived" "acme" "web" "svc-pv-1"
  /\ NfsClient.pvName "acme" "web" "svc" "pv-2"
     <> archived (NfsClient.pvName "acme" "web" "svc" "pv-1").
Proof.
  destruct (archived_name_is_live_name "acme" "web" "svc" "pv-1") as [E H].
  split; [exact E|].
  apply (H "acme" "web" "svc" "pv-2"); [reflexivity|discriminate].
Defined.

Module MountFacts.

Lemma mkdirAll_error chain h e h' :
  mkdirAll chain h = (Some e, h') ->
  exists p errno, e = PathError "mkdir" p errno.
Proof.
  revert h e h'. induction chain as [|p ps IH]; intros h e h'; simpl.
  - io_unfold. discriminate.
  - unfold io. destruct (dirExists h p); [discriminate|].
    destruct (mkdirAll ps h) as [[e1|] h1] eqn:E1.
    + intros [= <- <-]. now apply IH in E1.
    + unfold Mkdir, io. destruct (refuses h1 (MkdirCall p)); [|discriminate].
      intros [= <- <-]. now eexists _, _.
Qed.

Lemma MkdirAll_error path h e h' :
  MkdirAll path h = (Some e, h') ->
  exists p errno, e = PathError "mkdir" p errno.
Proof. unfold MkdirAll. io_unfold. apply mkdirAll_error. Qed.

Lemma isMounted_true mp h :
  fst (isMounted mp h) = true <->
  refuses h (ReadMountsCall "/proc/mounts") = None
  /\ exists m, In m (mounts h) /\ MountPoint m = mp.
Proof.
  unfold isMounted, ReadMounts. io_unfold. cbn [log refuses mounts].
  destruct (refuses h _); cbn.
  - split; [discriminate|]. now intros [? _].
  - rewrite existsb_exists. split.
    + intros (m & Hin & E%String.eqb_eq). split; [reflexivity|]. now exists m.
    + intros (_ & m & Hin & E). exists m. split; [assumption|].
      now apply String.eqb_eq.
Qed.

Lemma isMounted_unreadable mp h errno :
  refuses h (ReadMountsCall "/proc/mounts") = Some errno ->
  fst (isMounted mp h) = false.
Proof.
  intros H. destruct (fst (isMounted mp h)) eqn:E; [|reflexivity].
  apply isMounted_true in E as [E _]. congruence.
Qed.

(** What [ensureMount] does, by the way it ends. *)
Lemma ensureMount_cases server path mp h e h1 :
  Part000.ensureMount server path mp h = (e, h1) ->
  refuses h1 = refuses h
  /\ ((e = None /\ fst (isMounted mp h) = true
       /\ h1 = logged (ReadMountsCall "/proc/mounts") h)
      \/ (fst (isMounted mp h) = false
          /\ exists new,
              dirs h1 = dirs h ++ new /\ incl new (ancestry mp)
              /\ ((e = None /\ dirExists h1 mp = true
                   /\ mounts h1 = mounts h ++ [mkMount (server +:+ ":" +:+ path) mp]
                   /\ mountCalls h1 = mountCalls h + 1)
                  \/ (e = Some (ExitError 32) /\ dirExists h1 mp = true
                      /\ mounts h1 = mounts h
                      /\ mountCalls h1 = mountCalls h + 1)
                  \/ ((exists p errno, e = Some (PathError "mkdir" p errno))
                      /\ dirExists h1 mp = false
                      /\ mounts h1 = mounts h
                      /\ mountCalls h1 = mountCalls h)))).
Proof.
  unfold Part000.ensureMount. io_unfold. rewrite isMounted_pair.
  destruct (fst (isMounted mp h)).
  - intros [= <- <-]. split; [reflexivity|]. left. repeat split.
  - destruct (MkdirAll mp _) as [[e1|] h2] eqn:E1;
      destruct (MkdirAll_frame _ _ _ _ E1) as (Hm & Hr & Ht & new & Hd & Hincl);
      cbn [logged log snd mounts refuses dirs trace] in Hm, Hr, Ht, Hd.
    + intros [= <- <-]. split; [assumption|]. right. split; [reflexivity|].
      exists new. split; [assumption|]. split; [assumption|].
      right. right.
      split; [destruct (MkdirAll_error _ _ _ _ E1) as (p & errno & ->);
              now eexists _, _|].
      split; [now apply MkdirAll_failed in E1|]. split; [assumption|].
      unfold mountCalls. rewrite Ht, !List.filter_app, !length_app. cbn. lia.
    + pose proof (MkdirAll_ok _ _ _ E1) as Hthere.
      unfold RunMount. io_unfold. cbn [log refuses].
      destruct (refuses h2 _) eqn:Eref; intros [= <- <-]; cbn [refuses];
        (split; [assumption|]); right; (split; [reflexivity|]);
        exists new; cbn [dirs]; (split; [assumption|]); (split; [assumption|]).
      * right. left. repeat split; try assumption.
        unfold mountCalls. cbn [trace].
        rewrite Ht, !List.filter_app, !length_app. cbn. lia.
      * left. repeat split; try assumption.
        -- cbn [mounts]. now rewrite Hm.
        -- unfold mountCalls. cbn [trace].
           rewrite Ht, !List.filter_app, !length_app. cbn. lia.
Qed.

End MountFacts.

Import MountFacts.

(** [isMounted] answers true exactly when [/proc/mounts] can be read
    and has a row whose mount point is [mp], letter for letter; when the
    table cannot be read the answer is false, not an error.  It changes
    nothing on the host but the log.  Both programs. *)
Theorem isMounted_reads_table (mp : string) (h : Host) :
  (fst (isMounted mp h) = true <->
   refuses h (ReadMountsCall "/proc/mounts") = None
   /\ exists m, In m (mounts h) /\ MountPoint m = mp)
  /\ snd (isMounted mp h) = logged (ReadMountsCall "/proc/mounts") h.
Proof. split; [apply isMounted_true|apply isMounted_host]. Qed.





(** When [/proc/mounts] cannot be read, [ensureMount] takes the export
    for not mounted every time: two calls in a row that both return nil
    run [mount] twice and leave two rows for the mount point.  Both
    programs. *)
Theorem ensureMount_unreadable_remounts (server path : string)
    (h h1 h2 : Host) (errno : Errno) :
  refuses h (ReadMountsCall "/proc/mounts") = Some errno ->
  let row mp := mkMount (server +:+ ":" +:+ path) mp in
  (forall mp,
      Part000.ensureMount server path mp h = (None, h1) ->
      Part000.ensureMount server path mp h1 = (None, h2) ->
      mountCalls h2 = mountCalls h + 2
      /\ mounts h2 = mounts h ++ [row mp; row mp])
  /\ (forall mp,
      NfsClient.ensureMount server path h = ((mp, None), h1) ->
      NfsClient.ensureMount server path h1 = ((mp, None), h2) ->
      mountCalls h2 = mountCalls h + 2
      /\ mounts h2 = mounts h ++ [row mp; row mp]).
Proof.
  intros Hread row.
  assert (P : forall mp,
             Part000.ensureMount server path mp h = (None, h1) ->
             Part000.ensureMount server path mp h1 = (None, h2) ->
             mountCalls h2 = mountCalls h + 2
             /\ mounts h2 = mounts h ++ [row mp; row mp]).
  { intros mp E1 E2.
    assert (Hone : forall a b,
               refuses a (ReadMountsCall "/proc/mounts") = Some errno ->
               Part000.ensureMount server path mp a = (None, b) ->
               refuses b = refuses a
               /\ mountCalls b = mountCalls a + 1
               /\ mounts b = mounts a ++ [row mp]).
    { intros a b Ha E.
      pose proof (isMounted_unreadable mp a errno Ha) as Hnot.
      destruct (ensureMount_cases _ _ _ _ _ _ E)
        as (Hr & [(_ & Hvis & _) | (_ & new & _ & _ & [H | [H | H]])]).
      - congruence.
      - destruct H as (_ & _ & Hm & Hc). now repeat split.
      - destruct H as [? _]. discriminate.
      - destruct H as [(? & ? & ?) _]. discriminate. }
    destruct (Hone _ _ Hread E1) as (Hr1 & Hc1 & Hm1).
    rewrite <- Hr1 in Hread.
    destruct (Hone _ _ Hread E2) as (_ & Hc2 & Hm2).
    split; [lia|]. rewrite Hm2, Hm1, <- app_assoc. reflexivity. }
  split; [exact P|].
  intros mp. rewrite !ensureMount_shared.
  destruct (Part000.ensureMount server path _ h) as [e1 h1'] eqn:E1.
  intros [= <- -> ->].
  destruct (Part000.ensureMount server path _ h1) as [e2 h2'] eqn:E2.
  intros [= -> ->]. now apply P.
Qed.

Lemma ensureMount_unreadable_remounts_witness :
  refuses hostUnreadable (ReadMountsCall "/proc/mounts") = Some EACCES
  /\ exists h1 h2,
      NfsClient.ensureMount "nfs1" "/export" hostUnreadable
      = (("/persistentvolumes/nfs1/%2Fexport", None), h1)
      /\ NfsClient.ensureMount "nfs1" "/export" h1
         = (("/persistentvolumes/nfs1/%2Fexport", None), h2)
      /\ mountCalls h2 = 2
      /\ mounts h2
         = [mkMount "nfs1:/export" "/persistentvolumes/nfs1/%2Fexport";
            mkMount "nfs1:/export" "/persistentvolumes/nfs1/%2Fexport"].
Proof.
  split; [reflexivity|].
  set (h1 := snd (NfsClient.ensureMount "nfs1" "/export" hostUnreadable)).
  set (h2 := snd (NfsClient.ensureMount "nfs1" "/export" h1)).
  assert (E1 : NfsClient.ensureMount "nfs1" "/export" hostUnreadable
               = (("/persistentvolumes/nfs1/%2Fexport", None), h1))
    by (vm_compute; reflexivity).
  assert (E2 : NfsClient.ensureMount "nfs1" "/export" h1
               = (("/persistentvolumes/nfs1/%2Fexport", None), h2))
    by (vm_compute; reflexivity).
  exists h1, h2. split; [exact E1|]. split; [exact E2|].
  exact (proj2 (ensureMount_unreadable_remounts "nfs1" "/export"
                  hostUnreadable h1 h2 EACCES eq_refl) _ E1 E2).
Defined.

Module LifecycleFacts.

Lemma ensureMount_trace server path mp h e h1 :
  Part000.ensureMount server path mp h = (e, h1) ->
  exists rest, trace h1 = trace h ++ ReadMountsCall "/proc/mounts" :: rest.
Proof.
  unfold Part000.ensureMount. io_unfold. rewrite isMounted_pair.
  destruct (fst (isMounted mp h)).
  - intros [= <- <-]. now exists [].
  - destruct (MkdirAll mp _) as [[e1|] h2] eqn:E1;
      destruct (MkdirAll_frame _ _ _ _ E1) as (_ & _ & Ht & _);
      cbn [logged log snd trace] in Ht.
    + intros [= <- <-]. eexists. rewrite Ht, <- app_assoc. reflexivity.
    + intros E. destruct (RunMount_frame _ _ _ _ _ E) as (_ & _ & Ht' & _).
      eexists. rewrite Ht', Ht, <- !app_assoc. reflexivity.
Qed.

Lemma MkdirAll_trace path h e h1 :
  MkdirAll path h = (e, h1) -> trace h1 = trace h ++ [MkdirAllCall path].
Proof. intros E. now destruct (MkdirAll_frame _ _ _ _ E) as (_ & _ & ? & _). Qed.

Lemma mount_message_differs (x : string) :
  errorString ("unable to mount NFS volume: " +:+ x) <> MissingParameter.
Proof.
  change ("unable to mount NFS volume: " +:+ x)
    with (String "u" ("nable to mount NFS volume: " +:+ x)).
  discriminate.
Qed.

Lemma directory_message_differs (x : string) :
  errorString ("unable to create directory to provision new pv: " +:+ x)
  <> MissingParameter.
Proof.
  change ("unable to create directory to provision new pv: " +:+ x)
    with (String "u" ("nable to create directory to provision new pv: " +:+ x)).
  discriminate.
Qed.

End LifecycleFacts.

Import LifecycleFacts.

(** [Provision] checks that the two parameters are there, not what they
    hold: a request without a selector that has both keys, with whatever
    values, empty ones too, is not turned away with MissingParameter;
    [Provision] goes on to read the mount table.  Both programs. *)
Theorem provision_checks_presence_only (o : VolumeOptions) (h : Host) :
  pvcSelector (PVC o) = None ->
  inMap "nfsPath" (Parameters o) && inMap "nfsServer" (Parameters o) = true ->
  (snd (fst (NfsClient.Provision o h)) <> Some MissingParameter
   /\ exists rest,
       trace (snd (NfsClient.Provision o h))
       = trace h ++ ReadMountsCall "/proc/mounts" :: rest)
  /\ (snd (fst (Part000.Provision o h)) <> Some MissingParameter
      /\ exists rest,
          trace (snd (Part000.Provision o h))
          = trace h ++ ReadMountsCall "/proc/mounts" :: rest).
Proof.
  intros Hsel Hpar.
  unfold NfsClient.Provision, Part000.Provision. rewrite Hsel, Hpar.
  cbn [negb]. io_unfold. split.
  - rewrite ensureMount_shared.
    destruct (Part000.ensureMount _ _ _ h) as [[e|] h1] eqn:E;
      destruct (ensureMount_trace _ _ _ _ _ _ E) as [rest Ht].
    + cbn. split; [intros [= H]; now apply mount_message_differs in H|].
      now exists rest.
    + destruct (MkdirAll _ h1) as [[e|] h2] eqn:Emk;
        apply MkdirAll_trace in Emk; cbn.
      * split; [intros [= H]; now apply directory_message_differs in H|].
        eexists. rewrite Emk, Ht, <- app_assoc. reflexivity.
      * split; [discriminate|].
        eexists. rewrite Emk, Ht, <- app_assoc. reflexivity.
  - destruct (Part000.ensureMount _ _ _ h) as [[e|] h1] eqn:E;
      destruct (ensureMount_trace _ _ _ _ _ _ E) as [rest Ht].
    + cbn. split; [intros [= H]; now apply mount_message_differs in H|].
      now exists rest.
    + destruct (MkdirAll _ h1) as [[e|] h2] eqn:Emk;
        apply MkdirAll_trace in Emk; cbn.
      * split; [intros [= H]; now apply directory_message_differs in H|].
        eexists. rewrite Emk, Ht, <- app_assoc. reflexivity.
      * split; [discriminate|].
        eexists. rewrite Emk, Ht, <- app_assoc. reflexivity.
Qed.

Lemma provision_checks_presence_only_witness :
  Parameters requestEmptyValues !! "nfsServer" = Some ""
  /\ Parameters requestEmptyValues !! "nfsPath" = Some ""
  /\ snd (fst (NfsClient.Provision requestEmptyValues host0))
     <> Some MissingParameter
  /\ exists rest,
      trace (snd (NfsClient.Provision requestEmptyValues host0))
      = trace host0 ++ ReadMountsCall "/proc/mounts" :: rest.
Proof.
  split; [reflexivity|]. split; [reflexivity|].
  exact (proj1 (provision_checks_presence_only requestEmptyValues host0
                  eq_refl eq_refl)).
Defined.



(** On a host where the mount point is in the mount table, [Provision]
    mounts nothing and only makes the volume directory.  In [part_000]
    the mount point is that of the server, so this holds for every path
    of a server once one of its exports is mounted. *)
Theorem provision_on_mounted_export (o : VolumeOptions) (h : Host) :
  pvcSelector (PVC o) = None ->
  inMap "nfsPath" (Parameters o) && inMap "nfsServer" (Parameters o) = true ->
  let server := index "" (Parameters o) "nfsServer" in
  let path := index "" (Parameters o) "nfsPath" in
  (let mp := NfsClient.mountPoint server path in
   let dir := GoPath.Join
                [mp; NfsClient.pvName (Tenant o) (Stack o) (Service o) (PVName o)] in
   fst (isMounted mp h) = true ->
   trace (snd (NfsClient.Provision o h))
   = trace h ++ [ReadMountsCall "/proc/mounts"; MkdirAllCall dir]
   /\ mounts (snd (NfsClient.Provision o h)) = mounts h)
  /\ (let mp := GoPath.Join [mountPath; server] in
      let dir := GoPath.Join
                   [mp; Part000.pvName (pvcNamespace (PVC o)) (PVName o)] in
      fst (isMounted mp h) = true ->
      trace (snd (Part000.Provision o h))
      = trace h ++ [ReadMountsCall "/proc/mounts"; MkdirAllCall dir]
      /\ mounts (snd (Part000.Provision o h)) = mounts h).
Proof.
  intros Hsel Hpar server path.
  split; intros mp dir Hvis;
    unfold NfsClient.Provision, Part000.Provision; rewrite Hsel, Hpar;
    cbn [negb]; io_unfold; fold server path.
  - rewrite ensureMount_shared. fold mp.
    rewrite ensureMount_mounted by assumption. fold dir.
    destruct (MkdirAll dir _) as [[e|] h2] eqn:Emk;
      destruct (MkdirAll_frame _ _ _ _ Emk) as (Hm & _ & Ht & _);
      cbn [logged log snd trace mounts] in Hm, Ht; cbn [snd];
      rewrite Ht, <- app_assoc; now split.
  - fold mp. rewrite ensureMount_mounted by assumption. fold dir.
    destruct (MkdirAll dir _) as [[e|] h2] eqn:Emk;
      destruct (MkdirAll_frame _ _ _ _ Emk) as (Hm & _ & Ht & _);
      cbn [logged log snd trace mounts] in Hm, Ht; cbn [snd];
      rewrite Ht, <- app_assoc; now split.
Qed.

Lemma provision_on_mounted_export_witness :
  let hA := snd (Part000.Provision requestA host0) in
  fst (isMounted "/persistentvolumes/nfs1" hA) = true
  /\ trace (snd (Part000.Provision requestB hA))
     = trace hA ++ [ReadMountsCall "/proc/mounts";
                    MkdirAllCall "/persistentvolumes/nfs1/acme-pv-b"]
  /\ mounts (snd (Part000.Provision requestB hA)) = mounts hA.
Proof.
  intros hA.
  assert (V : fst (isMounted "/persistentvolumes/nfs1" hA) = true)
    by (vm_compute; reflexivity).
  split; [exact V|].
  exact (proj2 (provision_on_mounted_export requestB hA eq_refl eq_refl) V).
Defined.

Module LayoutFacts.
Import GoString GoPath SplitFacts PathFacts.

(** A clean path other than [/] and [.] stays clean when a proper
    element is written after it. *)
Lemma Clean_extend (p n : string) :
  Clean p = p -> p <> "/" -> p <> "." -> plain n = true ->
  Clean (p +:+ "/" +:+ n) = p +:+ "/" +:+ n.
Proof.
  intros Hc Hroot Hdot Hn.
  assert (Hp : p <> "") by (rewrite <- Hc; apply Clean_not_nil).
  rewrite Clean_slash_plain by assumption. unfold Clean in Hc.
  destruct (cleanElems (rooted p) (Split slash p)) as [|t T].
  - destruct (rooted p); vm_compute in Hc; congruence.
  - rewrite render_snoc by discriminate.
    destruct (String.eqb_spec (render (rooted p) (t :: T)) ""); congruence.
Qed.

Lemma extended_not_special (p n : string) :
  p <> "" -> p +:+ "/" +:+ n <> "/" /\ p +:+ "/" +:+ n <> ".".
Proof.
  intros Hp. destruct p as [|c p]; [congruence|]. rewrite append_cons.
  split; intros [= _ H]; apply append_eq_nil in H as [_ H]; discriminate.
Qed.

Lemma QueryEscape_plain (path : string) :
  path <> "" -> path <> "." -> path <> ".." ->
  plain (URL.QueryEscape path) = true.
Proof.
  intros H1 H2 H3. unfold plain. rewrite QueryEscape_no_slash. cbn [negb andb].
  destruct (String.eqb_spec (URL.QueryEscape path) "") as [E|_];
    [now apply (URLFacts.QueryEscape_inj path "") in E|].
  destruct (String.eqb_spec (URL.QueryEscape path) ".") as [E|_];
    [now apply (URLFacts.QueryEscape_inj path ".") in E|].
  destruct (String.eqb_spec (URL.QueryEscape path) "..") as [E|_];
    [now apply (URLFacts.QueryEscape_inj path "..") in E|].
  reflexivity.
Qed.

Lemma mountPoint_clean (server path : string) :
  plain server = true -> path <> "" -> path <> "." -> path <> ".." ->
  Clean (NfsClient.mountPoint server path) = NfsClient.mountPoint server path.
Proof.
  intros Hs H1 H2 H3. unfold NfsClient.mountPoint.
  assert (E : Clean (mountPath +:+ "/" +:+ server) = mountPath +:+ "/" +:+ server)
    by (apply Clean_extend; [reflexivity|discriminate|discriminate|assumption]).
  rewrite <- (append_assoc mountPath), <- append_assoc.
  rewrite (append_assoc mountPath).
  destruct (extended_not_special mountPath server) as [? ?]; [discriminate|].
  apply Clean_extend; try assumption. now apply QueryEscape_plain.
Qed.

End LayoutFacts.

Import LayoutFacts.

(** Where [provisioner.go] keeps a volume.  For a server that is a
    proper path element, a path other than the empty one, [.] and [..],
    and a directory name without a slash, the volume directory is the
    mount point followed by a slash and the name, one level below the
    mount point, and the archive is its sibling [archived-name]; after
    a successful [Provision] that directory exists. *)
Theorem volume_directory_layout (o : VolumeOptions) (h h1 : Host)
    (pv : PersistentVolume) :
  let server := index "" (Parameters o) "nfsServer" in
  let path := index "" (Parameters o) "nfsPath" in
  let name := NfsClient.pvName (Tenant o) (Stack o) (Service o) (PVName o) in
  let mp := NfsClient.mountPoint server path in
  GoPath.plain server = true ->
  path <> "" -> path <> "." -> path <> ".." ->
  GoString.Contains GoPath.slash name = false ->
  GoPath.Join [mp; name] = mp +:+ "/" +:+ name
  /\ GoPath.Join [mp; archived name] = mp +:+ "/" +:+ archived name
  /\ OS.below mp (GoPath.Join [mp; name]) = true
  /\ (NfsClient.Provision o h = ((Some pv, None), h1) ->
      dirExists h1 (mp +:+ "/" +:+ name) = true).
Proof.
  intros server path name mp Hs H1 H2 H3 Hslash.
  assert (Hmp : mp <> "") by apply mountPoint_not_nil.
  assert (Hclean : GoPath.Clean mp = mp) by now apply mountPoint_clean.
  assert (Hspecial : mp <> "/" /\ mp <> ".").
  { unfold mp, NfsClient.mountPoint.
    apply (extended_not_special mountPath). discriminate. }
  destruct Hspecial as [Hroot Hdot].
  assert (Hplain : GoPath.plain name = true) by now apply plain_dashed.
  assert (E : GoPath.Join [mp; name] = mp +:+ "/" +:+ name).
  { rewrite PathFacts.Join_two by assumption. now apply Clean_extend. }
  split; [exact E|]. split; [|split].
  - rewrite PathFacts.Join_two by assumption.
    apply Clean_extend; try assumption. now apply plain_archived.
  - rewrite E. unfold OS.below.
    assert (GoString.TrimPrefix (mp +:+ "/") (mp +:+ "/" +:+ name) = Some name)
      as ->; [|reflexivity].
    apply SplitFacts.TrimPrefix_app. now rewrite append_assoc.
  - intros Hok. rewrite <- E.
    destruct (Provision_success _ _ _ _ Hok) as ((h0 & _ & Emk) & _).
    now apply MkdirAll_ok in Emk.
Qed.

Lemma volume_directory_layout_witness :
  GoPath.Join ["/persistentvolumes/nfs1/%2Fexport"; "acme-web-svc-pv-1"]
  = "/persistentvolumes/nfs1/%2Fexport/acme-web-svc-pv-1"
  /\ dirExists hostProvisioned0
       "/persistentvolumes/nfs1/%2Fexport/acme-web-svc-pv-1" = true.
Proof.
  assert (Hok : NfsClient.Provision request0 host0
                = ((Some volume0, None), hostProvisioned0))
    by (vm_compute; reflexivity).
  destruct (volume_directory_layout request0 host0 hostProvisioned0 volume0
              eq_refl) as (E & _ & _ & Hex); try discriminate; try reflexivity.
  split; [exact E|exact (Hex Hok)].
Defined.

Module DeleteFacts.

(** [Delete] of [provisioner.go] is the spec's archive step for the
    export [server:path.Dir(Path)]. *)
Lemma Delete_as_archive volume nfs h :
  NFS volume = Some nfs ->
  NfsClient.Delete volume h
  = archive (ensureMounted (Server nfs) (GoPath.Dir (Path nfs)))
      (NfsClient.mountPoint (Server nfs) (GoPath.Dir (Path nfs)))
      (labelledName volume) h.
Proof.
  intros Hnfs. rewrite (Delete_unfold _ _ _ Hnfs).
  unfold archive, ensureMounted. io_unfold.
  pose proof (ensureMount_fst (Server nfs) (GoPath.Dir (Path nfs)) h) as Hmp.
  destruct (NfsClient.ensureMount _ _ h) as [[mp [e|]] h'];
    [reflexivity|].
  cbn in Hmp. subst mp.
  destruct (Rename _ _ h'); reflexivity.
Qed.

Lemma Delete000_as_archive volume nfs claimRef h :
  NFS volume = Some nfs -> ClaimRef volume = Some claimRef ->
  Part000.Delete volume h
  = archive (Part000.ensureMount (Server nfs) (GoPath.Dir (Path nfs))
               (GoPath.Join [mountPath; Server nfs]))
      (GoPath.Join [mountPath; Server nfs]) (referredName claimRef volume) h.
Proof.
  intros Hnfs Href. rewrite (Delete000_unfold _ _ _ _ Hnfs Href).
  rewrite <- !(PathFacts.Join_Join mountPath (Server nfs)) by discriminate.
  unfold archive. io_unfold.
  destruct (Part000.ensureMount _ _ _ h) as [[e|] h']; [reflexivity|].
  destruct (Rename _ _ h'); reflexivity.
Qed.








End DeleteFacts.

Import DeleteFacts.

(** [Delete], for every volume that has the fields it reads, is the
    spec's archive step: in [provisioner.go] for the export
    [server:path.Dir(Path)], its mount point, and the name made of the
    three labels and the volume's name, a missing label counting as the
    empty string, so that a volume without labels is looked for under
    [---name]; in [part_000] for the server's mount point and the name
    made of the claim reference's namespace and the volume's name. *)
Theorem delete_is_archive (volume : PersistentVolume) (nfs : NFSVolumeSource) :
  NFS volume = Some nfs ->
  let server := Server nfs in
  let path := GoPath.Dir (Path nfs) in
  (forall h,
      NfsClient.Delete volume h
      = archive (ensureMounted server path) (NfsClient.mountPoint server path)
          (labelledName volume) h)
  /\ (Labels volume !! "io.wise2c.tenant" = None ->
      Labels volume !! "io.wise2c.stack" = None ->
      Labels volume !! "io.wise2c.service" = None ->
      labelledName volume = "---" +:+ Name volume)
  /\ (forall claimRef h,
      ClaimRef volume = Some claimRef ->
      Part000.Delete volume h
      = archive (Part000.ensureMount server path (GoPath.Join [mountPath; server]))
          (GoPath.Join [mountPath; server])
          (Part000.pvName (refNamespace claimRef) (Name volume)) h).
Proof.
  intros Hnfs server path. split; [|split].
  - intros h. now apply Delete_as_archive.
  - intros Ht Hs Hv. unfold labelledName, index. now rewrite Ht, Hs, Hv.
  - intros claimRef h Href. now apply Delete000_as_archive.
Qed.

Lemma delete_is_archive_witness :
  let unlabelled := mkPV "pv-1" ∅ "Delete" [] ∅ (Some nfs0) None in
  labelledName unlabelled = "---pv-1"
  /\ NfsClient.Delete unlabelled host0
     = archive (ensureMounted "nfs1" "/export")
         "/persistentvolumes/nfs1/%2Fexport" "---pv-1" host0.
Proof.
  intros unlabelled.
  destruct (delete_is_archive unlabelled nfs0 eq_refl) as (D & L & _).
  split; [exact (L eq_refl eq_refl eq_refl)|].
  rewrite D. reflexivity.
Defined.

(** The export [Delete] of [provisioner.go] mounts for a provisioned
    volume is the request's path cleaned: for the descriptor of a
    successful [Provision] whose directory name holds no slash, [Delete]
    is the archive step at the mount point of [path.Clean(nfsPath)],
    which is the mount point [Provision] used exactly when the path was
    clean already. *)
Theorem delete_mounts_cleaned_path (o : VolumeOptions) (h h1 : Host)
    (pv : PersistentVolume) :
  let server := index "" (Parameters o) "nfsServer" in
  let path := index "" (Parameters o) "nfsPath" in
  let name := NfsClient.pvName (Tenant o) (Stack o) (Service o) (PVName o) in
  NfsClient.Provision o h = ((Some pv, None), h1) ->
  GoString.Contains GoPath.slash name = false ->
  (forall h2,
      NfsClient.Delete pv h2
      = archive (ensureMounted server (GoPath.Clean path))
          (NfsClient.mountPoint server (GoPath.Clean path)) name h2)
  /\ (NfsClient.mountPoint server (GoPath.Clean path)
      = NfsClient.mountPoint server path <-> GoPath.Clean path = path).
Proof.
  intros server path name Hok Hslash.
  destruct (Provision_success _ _ _ _ Hok) as (_ & Hnfs & Hname).
  fold server path name in Hnfs, Hname. split.
  - intros h2. rewrite (Delete_as_archive _ _ _ Hnfs). cbn [Server Path].
    rewrite Dir_Join_Clean, Hname by now apply plain_dashed. reflexivity.
  - split; [apply mountPoint_injective|now intros ->].
Qed.

Lemma delete_mounts_cleaned_path_witness :
  exists pv h1,
    NfsClient.Provision requestTrailingSlash host0 = ((Some pv, None), h1)
    /\ GoPath.Clean "/export/" = "/export"
    /\ forall h2,
        NfsClient.Delete pv h2
        = archive (ensureMounted "nfs1" "/export")
            "/persistentvolumes/nfs1/%2Fexport" "acme-web-svc-pv-1" h2.
Proof.
  set (pv := from_option id foreignVolume
               (fst (fst (NfsClient.Provision requestTrailingSlash host0)))).
  set (h1 := snd (NfsClient.Provision requestTrailingSlash host0)).
  assert (Hok : NfsClient.Provision requestTrailingSlash host0
                = ((Some pv, None), h1)) by (vm_compute; reflexivity).
  exists pv, h1. split; [exact Hok|]. split; [reflexivity|].
  exact (proj1 (delete_mounts_cleaned_path requestTrailingSlash host0 h1 pv
                  Hok eq_refl)).
Defined.




